(** * A shallow embedding of the isolator package (venopyX/isolator)

    The plan compiler ([ApplicationIsolator._prepare_bwrap_args]), its
    managers (filesystem, security, enhanced security, resource, display),
    the configuration object, the profile catalog loader, and the run
    lifecycle with its cleanup. *)

From Stdlib Require Import String Ascii List ZArith Bool Lia.
From Stdlib Require Import DecimalString.
Import ListNotations.
Open Scope list_scope.
Open Scope string_scope.

(** ** Python values and exceptions *)

(** The Python exception classes raised along the paths we model; the
    [ValueError] carries its message, an [OSError] the name of its subclass
    ([FileNotFoundError], [PermissionError], [NotADirectoryError], ...). *)
Inductive exn :=
| ValueError (msg : string)
| IndexError
| AttributeError (name : string)
| NameError (name : string)
| TypeError
| KeyError (key : string)
| FileExistsError
| OSError (name : string)
| RuntimeError.

Inductive res (A : Type) :=
| Ok (a : A)
| Err (e : exn).
Arguments Ok {A} a.
Arguments Err {A} e.

(** ** String helpers: the Python string operations the code uses *)

Definition str_eqb (a b : string) : bool := String.eqb a b.

Definition mem (x : string) (l : list string) : bool :=
  existsb (str_eqb x) l.

(** [s.startswith(p)] *)
Definition startswith (s p : string) : bool := String.prefix p s.

(** Characters for which Python's [str.isspace] holds, in the ASCII range:
    [\t \n \v \f \r], the separators [\x1c]-[\x1f] and the space. *)
Definition py_isspace (c : ascii) : bool :=
  let n := nat_of_ascii c in
  (Nat.leb 9 n && Nat.leb n 13) || (Nat.leb 28 n && Nat.leb n 32).

Fixpoint lstrip (s : string) : string :=
  match s with
  | EmptyString => EmptyString
  | String c r => if py_isspace c then lstrip r else s
  end.

Definition rev_string (s : string) : string :=
  string_of_list_ascii (rev (list_ascii_of_string s)).

(** [s.strip()] *)
Definition strip (s : string) : string :=
  rev_string (lstrip (rev_string (lstrip s))).

(** [s[-1]]: [IndexError] on the empty string. *)
Definition last_char (s : string) : res ascii :=
  match rev (list_ascii_of_string s) with
  | [] => Err IndexError
  | c :: _ => Ok c
  end.

(** [s[:-1]] *)
Definition drop_last (s : string) : string :=
  string_of_list_ascii (removelast (list_ascii_of_string s)).

(** [c.upper()] on one ASCII character. *)
Definition upper (c : ascii) : ascii :=
  let n := nat_of_ascii c in
  if Nat.leb 97 n && Nat.leb n 122 then ascii_of_nat (n - 32) else c.

(** [str(n)] / [f"{n}"] for a Python int. *)
Definition string_of_Z (z : Z) : string :=
  NilZero.string_of_int (Z.to_int z).

(** ** Python's [float()] on the numeric part of a size string

    [float(s)] strips surrounding whitespace and accepts a decimal literal
    [[+|-] digits [. digits]] (at least one digit).  The value is kept as an
    exact fraction [m / 10^k]; Python's binary64 value coincides with it on
    every integer literal below 2^53, which is the range the sizes take.
    The exponent, [inf]/[nan] and underscore spellings that [float] also
    accepts are not part of this model (they are reported as failures). *)

Definition digit_val (c : ascii) : option Z :=
  let n := nat_of_ascii c in
  if Nat.leb 48 n && Nat.leb n 57 then Some (Z.of_nat (n - 48)) else None.

(** Reads digits; returns (value, number of digits, rest). *)
Fixpoint read_digits (l : list ascii) (acc : Z) (cnt : nat)
  : Z * nat * list ascii :=
  match l with
  | c :: r =>
      match digit_val c with
      | Some d => read_digits r (acc * 10 + d) (S cnt)
      | None => (acc, cnt, l)
      end
  | [] => (acc, cnt, [])
  end.

(** A parsed decimal: numerator and power of ten of the denominator. *)
Definition py_float (s : string) : option (Z * nat) :=
  let l := list_ascii_of_string (strip s) in
  let '(sign, l1) :=
    match l with
    | "-"%char :: r => ((-1)%Z, r)
    | "+"%char :: r => (1%Z, r)
    | _ => (1%Z, l)
    end in
  let '(ip, n1, l2) := read_digits l1 0 0 in
  match l2 with
  | [] => if (n1 =? 0)%nat then None else Some ((sign * ip)%Z, 0%nat)
  | "."%char :: l3 =>
      let '(fp, n2, l4) := read_digits l3 0 0 in
      match l4 with
      | [] =>
          if ((n1 + n2) =? 0)%nat then None
          else Some ((sign * (ip * 10 ^ Z.of_nat n2 + fp))%Z, n2)
      | _ => None
      end
  | _ => None
  end.

(** [int(number * units[unit])]: truncation toward zero. *)
Definition py_int_mul (num : Z * nat) (u : Z) : Z :=
  let '(m, k) := num in Z.quot (m * u) (10 ^ Z.of_nat k).

(** ** ResourceManager._parse_size *)

Definition size_units (c : ascii) : option Z :=
  match c with
  | "B"%char => Some 1%Z
  | "K"%char => Some 1024%Z
  | "M"%char => Some (1024 * 1024)%Z
  | "G"%char => Some (1024 * 1024 * 1024)%Z
  | "T"%char => Some (1024 * 1024 * 1024 * 1024)%Z
  | _ => None
  end.

Definition parse_size (size_str : string) : res Z :=
  let size := strip size_str in
  match last_char size with
  | Err e => Err e
  | Ok c =>
      let unit := upper c in
      match size_units unit with
      | None => Err (ValueError ("Invalid size unit in " ++ size_str))
      | Some u =>
          match py_float (drop_last size) with
          | Some number => Ok (py_int_mul number u)
          | None => Err (ValueError ("Invalid size format: " ++ size_str))
          end
      end
  end.

(** ** The host the compiler inspects

    The parts of the host that the code reads but never changes: the home
    directory, the uid, the process environment, the password database,
    the answers of the [which] subprocess and of [os.access(_, X_OK)], the
    first executable hit of an [os.walk] search, and the directories that
    cannot be created.  The set of existing paths, which the code does
    change, lives in the state below. *)

(** The outcome of [subprocess.check_output(["which", name])]: the path it
    prints (decoded and stripped), [CalledProcessError] when [which] exits
    with a non-zero status, or another exception, which the code does not
    catch: [FileNotFoundError] when no [which] executable is installed, a
    [UnicodeDecodeError] on undecodable output, ... *)
Inductive which_outcome :=
| WhichFound (path : string)
| WhichNotFound
| WhichRaises (e : exn).

Record Host := {
  home_env : string;                          (* the home directory *)
  uid : string;                               (* str(os.getuid()) *)
  environ : string -> option string;          (* os.environ *)
  user_home : string -> option string;        (* pwd.getpwnam(name).pw_dir, None = KeyError *)
  which : string -> which_outcome;            (* check_output(["which", name]) *)
  is_executable : string -> bool;             (* os.access(path, os.X_OK) *)
  walk_find : string -> string -> option string; (* first executable [name] under [root] in os.walk order *)
  mkdir_error : string -> option exn          (* the OSError making [d] a directory raises, if any *)
}.

(** [os.environ.get(k, d)] / [os.getenv(k, d)] *)
Definition getenv (h : Host) (k d : string) : string :=
  match environ h k with Some v => v | None => d end.

(** Python truthiness of an optional string: present and non-empty. *)
Definition truthy_str (o : option string) : bool :=
  match o with Some v => negb (str_eqb v "") | None => false end.

Fixpoint rstrip_slash_rev (l : list ascii) : list ascii :=
  match l with
  | "/"%char :: r => rstrip_slash_rev r
  | _ => l
  end.

Definition rstrip_slash (s : string) : string :=
  string_of_list_ascii (rev (rstrip_slash_rev (rev (list_ascii_of_string s)))).

(** [(path[:i], path[i:])] for [i = path.find("/")], or the whole string
    and [""] when there is no slash. *)
Fixpoint split_at_slash (s : string) : string * string :=
  match s with
  | EmptyString => ("", "")
  | String "/" _ => ("", s)
  | String c r => let (a, b) := split_at_slash r in (String c a, b)
  end.

(** [os.path.expanduser(p)]: a leading [~] (up to the first slash) is
    replaced by the home directory, a leading [~name] by the home directory
    of [name] in the password database; an unknown [name], or a path that
    does not start with [~], is returned unchanged. *)
Definition expanduser (h : Host) (p : string) : string :=
  match p with
  | String "~" path1 =>
      let (name, tail) := split_at_slash path1 in
      let home := if str_eqb name "" then Some (home_env h) else user_home h name in
      match home with
      | None => p
      | Some userhome =>
          let r := rstrip_slash userhome ++ tail in
          if str_eqb r "" then "/" else r
      end
  | _ => p
  end.

Definition isabs (p : string) : bool := startswith p "/".

(** ** [pathlib.PurePosixPath]

    [Path(s)] keeps a root ([""], ["/"], or ["//"] for exactly two leading
    slashes) and the components of [s] between slashes, dropping the empty
    ones and ["."]; [str] joins them back. *)
Fixpoint components (s : string) : list string :=
  match s with
  | EmptyString => [""]
  | String "/" r => "" :: components r
  | String c r =>
      match components r with
      | x :: xs => String c x :: xs
      | [] => [String c ""]
      end
  end.

Definition path_parts (s : string) : list string :=
  filter (fun x => negb (str_eqb x "" || str_eqb x ".")) (components s).

Definition path_root (s : string) : string :=
  match s with
  | String "/" (String "/" (String "/" _)) => "/"
  | String "/" (String "/" _) => "//"
  | String "/" _ => "/"
  | _ => ""
  end.

Fixpoint join_slash (parts : list string) : string :=
  match parts with
  | [] => ""
  | [x] => x
  | x :: r => x ++ "/" ++ join_slash r
  end.

(** [str(PurePosixPath(...))] of a root and its components. *)
Definition path_str (root : string) (parts : list string) : string :=
  let r := root ++ join_slash parts in
  if str_eqb r "" then "." else r.

(** [str(Path(s))] *)
Definition path_norm (s : string) : string := path_str (path_root s) (path_parts s).

(** [str(Path(s).expanduser())]: a relative path whose first component
    starts with [~] has that component expanded by [os.path.expanduser];
    when the expansion still starts with [~] (an unknown user) it raises
    [RuntimeError]. *)
Definition path_expanduser (h : Host) (s : string) : res string :=
  if str_eqb (path_root s) "" then
    match path_parts s with
    | (String "~" _ as first) :: more =>
        let homedir := expanduser h first in
        if startswith homedir "~" then Err RuntimeError
        else Ok (path_str (path_root homedir) (path_parts homedir ++ more))
    | _ => Ok (path_norm s)
    end
  else Ok (path_norm s).

Definition ends_with_slash (s : string) : bool :=
  match rev (list_ascii_of_string s) with
  | "/"%char :: _ => true
  | _ => false
  end.

(** [os.path.join(a, b)]; also [str(Path(a) / b)] for the normalised
    paths the code joins. *)
Definition path_join (a b : string) : string :=
  if isabs b then b
  else if str_eqb a "" || ends_with_slash a then a ++ b
  else a ++ "/" ++ b.

Fixpoint basename_rev (l : list ascii) (acc : list ascii) : list ascii :=
  match l with
  | [] => acc
  | "/"%char :: _ => acc
  | c :: r => basename_rev r (c :: acc)
  end.

(** [os.path.basename(p)] *)
Definition basename (p : string) : string :=
  string_of_list_ascii (basename_rev (rev (list_ascii_of_string p)) []).

(** The directory [p] and every ancestor [mkdir(parents=True)] creates. *)
Fixpoint dir_chain_aux (l : list ascii) (acc : list ascii) : list string :=
  match l with
  | [] => [string_of_list_ascii (rev acc)]
  | "/"%char :: r =>
      ((if (length acc =? 0)%nat then [] else [string_of_list_ascii (rev acc)])
      ++ dir_chain_aux r ("/"%char :: acc))%list
  | c :: r => dir_chain_aux r (c :: acc)
  end.

Definition dir_chain (p : string) : list string :=
  dir_chain_aux (list_ascii_of_string (rstrip_slash p)) [].

(** [q] lies in the tree rooted at [d]. *)
Definition under (d q : string) : bool :=
  str_eqb q d || startswith q (d ++ "/").

(** ** State and the state/exception monad

    [st_fs] is the set of existing paths; [st_next] is the position in the
    stream of random names [tempfile.mkdtemp] draws from;
    [st_temp_dirs] is [FilesystemManager.temp_dirs]; [st_created] is a
    ghost log of the directories [mkdtemp] created, used only to state
    what cleanup must remove. *)
Record St := {
  st_fs : list string;
  st_next : nat;
  st_temp_dirs : list string;
  st_created : list string
}.

Definition M (A : Type) : Type := St -> res A * St.

Definition ret {A} (a : A) : M A := fun st => (Ok a, st).
Definition raise {A} (e : exn) : M A := fun st => (Err e, st).
Definition bind {A B} (m : M A) (k : A -> M B) : M B :=
  fun st => match m st with
            | (Ok a, st') => k a st'
            | (Err e, st') => (Err e, st')
            end.

Notation "x <- m ;; k" := (bind m (fun x => k))
  (at level 61, m at next level, right associativity).

(** A computation that only reads the existing paths. *)
Definition read_fs {A} (f : list string -> res A) : M A :=
  fun st => (f (st_fs st), st).

Definition get_temp_dirs : M (list string) :=
  fun st => (Ok (st_temp_dirs st), st).

Definition set_fs (fs : list string) (st : St) : St :=
  {| st_fs := fs; st_next := st_next st;
     st_temp_dirs := st_temp_dirs st; st_created := st_created st |}.

(** [self.temp_dirs = ds] *)
Definition set_temp_dirs (ds : list string) : M unit :=
  fun st => (Ok tt, {| st_fs := st_fs st; st_next := st_next st;
                       st_temp_dirs := ds; st_created := st_created st |}).

(** [self.temp_dirs.append(d)] *)
Definition append_temp_dir (d : string) : M unit :=
  fun st => (Ok tt, {| st_fs := st_fs st; st_next := st_next st;
                       st_temp_dirs := (st_temp_dirs st ++ [d])%list;
                       st_created := st_created st |}).

Definition add_path (fs : list string) (p : string) : list string :=
  if mem p fs then fs else (fs ++ [p])%list.

(** The walk of [os.makedirs(p, exist_ok=True)] and of
    [Path(p).mkdir(parents=True, exist_ok=True)] down the chain of [p],
    from the outermost ancestor in: a directory that exists is kept, a
    missing one is created.  The first component that cannot be a directory
    ([mkdir_error h d = Some e]: a file in the way, no permission to create
    it, a read-only file system, ...) stops the walk, and its [OSError]
    escapes; the ancestors before it stay created. *)
Fixpoint mkdir_chain (h : Host) (ds fs : list string) : res unit * list string :=
  match ds with
  | [] => (Ok tt, fs)
  | d :: r =>
      match mkdir_error h d with
      | Some e => (Err e, fs)
      | None => mkdir_chain h r (add_path fs d)
      end
  end.

(** [os.makedirs(p, exist_ok=True)] and [Path(p).mkdir(parents=True,
    exist_ok=True)]. *)
Definition makedirs (h : Host) (p : string) : M unit :=
  fun st => match mkdir_chain h (dir_chain p) (st_fs st) with
            | (r, fs) => (r, set_fs fs st)
            end.

(** [tempfile.mkdtemp()]: tries successive random names and creates the
    first that does not exist yet, giving up with [FileExistsError] after
    [TMP_MAX] attempts. *)
Definition TMP_MAX : positive := 238328.

Section Mkdtemp.
Variable tmp_max : positive.
Variable rng : nat -> string.

(** One attempt: the candidate [rng n] is taken unless it exists. *)
Definition mkdtemp_attempt (fs : list string) (n : nat) : option string * nat :=
  if mem (rng n) fs then (None, S n) else (Some (rng n), S n).

(** [p] successive attempts, stopping at the first success. *)
Fixpoint mkdtemp_attempts (p : positive) (fs : list string) (n : nat)
  : option string * nat :=
  match p with
  | xH => mkdtemp_attempt fs n
  | xO q =>
      match mkdtemp_attempts q fs n with
      | (Some d, m) => (Some d, m)
      | (None, m) => mkdtemp_attempts q fs m
      end
  | xI q =>
      match mkdtemp_attempt fs n with
      | (Some d, m) => (Some d, m)
      | (None, m) =>
          match mkdtemp_attempts q fs m with
          | (Some d, m') => (Some d, m')
          | (None, m') => mkdtemp_attempts q fs m'
          end
      end
  end.

Definition mkdtemp : M string :=
  fun st =>
    match mkdtemp_attempts tmp_max (st_fs st) (st_next st) with
    | (Some d, n) =>
        (Ok d, {| st_fs := (st_fs st ++ [d])%list; st_next := n;
                  st_temp_dirs := st_temp_dirs st;
                  st_created := d :: st_created st |})
    | (None, n) =>
        (Err FileExistsError,
         {| st_fs := st_fs st; st_next := n;
            st_temp_dirs := st_temp_dirs st; st_created := st_created st |})
    end.
End Mkdtemp.

(** [shutil.rmtree(d)]: removes the tree rooted at [d]; a missing [d]
    raises [FileNotFoundError] (then nothing lies under it). *)
Definition rmtree (d : string) (fs : list string) : bool * list string :=
  (mem d fs, filter (fun q => negb (under d q)) fs).

(** [FilesystemManager.cleanup]: every failure is caught and logged. *)
Definition fs_cleanup (st : St) : St :=
  set_fs (fold_left (fun fs d => snd (rmtree d fs)) (st_temp_dirs st) (st_fs st)) st.

(** ** Enumerations (enums.py) *)

Inductive DisplayServer := X11 | WAYLAND | UNKNOWN.
Inductive IsolationLevel := MINIMAL | STANDARD | STRICT.
Inductive ApplicationProfile := BASIC | BROWSER | MULTIMEDIA | DEVELOPMENT | GRAPHICS.

Definition profile_eqb (a b : ApplicationProfile) : bool :=
  match a, b with
  | BASIC, BASIC | BROWSER, BROWSER | MULTIMEDIA, MULTIMEDIA
  | DEVELOPMENT, DEVELOPMENT | GRAPHICS, GRAPHICS => true
  | _, _ => false
  end.

Definition level_eqb (a b : IsolationLevel) : bool :=
  match a, b with
  | MINIMAL, MINIMAL | STANDARD, STANDARD | STRICT, STRICT => true
  | _, _ => false
  end.

(** [str(profile)] *)
Definition profile_str (p : ApplicationProfile) : string :=
  match p with
  | BASIC => "ApplicationProfile.BASIC"
  | BROWSER => "ApplicationProfile.BROWSER"
  | MULTIMEDIA => "ApplicationProfile.MULTIMEDIA"
  | DEVELOPMENT => "ApplicationProfile.DEVELOPMENT"
  | GRAPHICS => "ApplicationProfile.GRAPHICS"
  end.

(** ** Configuration records (config/base.py, config/profiles.py) *)

Record ResourceLimits := {
  memory_limit : option string;
  cpu_limit : option Z;
  io_weight : option Z;
  max_processes : option Z;
  max_file_size : option string;
  max_files : option Z
}.

Definition no_limits : ResourceLimits :=
  {| memory_limit := None; cpu_limit := None; io_weight := None;
     max_processes := None; max_file_size := None; max_files := None |}.

Record IsolationConfig := {
  app_command : list string;
  persist_dir : option string;
  network_enabled : bool;
  gui_enabled : bool;
  isolation_level : IsolationLevel;
  tmp_dir : option string;
  overlay_enabled : bool;
  debug : bool;
  profile : option ApplicationProfile;
  resource_limits : option ResourceLimits
}.

Definition with_command (c : IsolationConfig) (cmd : list string) : IsolationConfig :=
  {| app_command := cmd; persist_dir := persist_dir c;
     network_enabled := network_enabled c; gui_enabled := gui_enabled c;
     isolation_level := isolation_level c; tmp_dir := tmp_dir c;
     overlay_enabled := overlay_enabled c; debug := debug c;
     profile := profile c; resource_limits := resource_limits c |}.

(** [ProfileConfig]; [pc_resource_limits] is the [ResourceLimits] value
    the isolator builds by keyword expansion of the document's
    resource-limit mapping, when that mapping is non-empty. *)
Record ProfileConfig := {
  pc_name : string;
  pc_mounts : list string;
  pc_devices : list string;
  pc_capabilities : list string;
  pc_env_vars : list (string * string);
  pc_seccomp_profile : option string;
  pc_network_ports : option (list Z);
  pc_resource_limits : option ResourceLimits
}.

(** [IsolationConfig.__post_init__] (constructor with its defaults supplied
    by the caller), for [persist_dir] and [tmp_dir] given as strings.  A
    non-empty [persist_dir] becomes a [Path], is expanded and is created
    with its parents; an empty one is falsy, is left as it is and reads as
    absent everywhere the code looks at it.  A [tmp_dir] becomes a [Path]
    and is expanded. *)
Definition mk_config (h : Host) (cmd : list string) (persist : option string)
    (net gui : bool) (lvl : IsolationLevel) (tmp : option string)
    (overlay dbg : bool) (prof : option ApplicationProfile)
    (limits : option ResourceLimits) : M IsolationConfig :=
  match cmd with
  | [] => raise (ValueError "Application command cannot be empty")
  | _ =>
      persist' <- (match persist with
                   | Some p =>
                       if str_eqb p "" then ret None
                       else match path_expanduser h p with
                            | Ok p' => _ <- makedirs h p' ;; ret (Some p')
                            | Err e => raise e
                            end
                   | None => ret None
                   end) ;;
      tmp' <- (match tmp with
               | Some t =>
                   match path_expanduser h t with
                   | Ok t' => ret (Some t')
                   | Err e => raise e
                   end
               | None => ret None
               end) ;;
      ret {| app_command := cmd; persist_dir := persist';
             network_enabled := net; gui_enabled := gui;
             isolation_level := lvl; tmp_dir := tmp';
             overlay_enabled := overlay; debug := dbg;
             profile := prof; resource_limits := limits |}
  end.

(** ** FilesystemManager *)

Section Filesystem.
Variable h : Host.

Definition search_paths : list string :=
  ["/usr/bin"; "/usr/local/bin"; "/opt"; "/usr/lib"; "/usr/lib64";
   "/usr/share"; "/usr/local/lib"].

Fixpoint search_common (fs : list string) (name : string) (rest : list string)
    (paths : list string) : option (list string) :=
  match paths with
  | [] => None
  | path :: ps =>
      let full_path := path_join path name in
      if mem full_path fs && is_executable h full_path then Some (full_path :: rest)
      else
        match (if mem path fs then walk_find h path name else None) with
        | Some p => Some (p :: rest)
        | None => search_common fs name rest ps
        end
  end.

(** [FilesystemManager.resolve_command] *)
Definition resolve_command (fs : list string) (command : list string) : res (list string) :=
  match command with
  | [] => Err (ValueError "Empty command provided")
  | binary_name :: rest =>
      if isabs binary_name then Ok command
      else
        match which h binary_name with
        | WhichFound full_path => Ok (full_path :: rest)
        | WhichRaises e => Err e
        | WhichNotFound =>
            match search_common fs binary_name rest search_paths with
            | Some c => Ok c
            | None => Ok command
            end
        end
  end.

(** [FilesystemManager._create_temp_dirs] *)
Definition create_temp_dirs (rng : nat -> string) (cfg : IsolationConfig) : M (list string) :=
  match tmp_dir cfg with
  | Some t => ret [t]
  | None => d <- mkdtemp TMP_MAX rng ;; ret [d]
  end.

Definition essential_paths : list (string * string * bool) :=
  [("/proc", "/proc", true); ("/sys", "/sys", false);
   ("/usr", "/usr", false); ("/bin", "/bin", false); ("/sbin", "/sbin", false);
   ("/lib", "/lib", false); ("/lib64", "/lib64", false);
   ("/etc", "/etc", false); ("/opt", "/opt", false); ("/var", "/var", false);
   (expanduser h "~", expanduser h "~", true)].

Definition mount_essential (fs : list string) : list string :=
  flat_map (fun '((src, dest, writable) : string * string * bool) =>
              if mem src fs then
                if writable then ["--bind"; src; dest] else ["--ro-bind"; src; dest]
              else []) essential_paths.

Definition dev_args : list string :=
  ["--dev-bind"; "/dev"; "/dev";
   "--dev-bind"; "/dev/shm"; "/dev/shm";
   "--bind"; "/proc/self"; "/proc/self";
   "--bind"; "/proc/sys"; "/proc/sys";
   "--bind"; "/proc/sysrq-trigger"; "/proc/sysrq-trigger";
   "--bind"; "/proc/irq"; "/proc/irq";
   "--bind"; "/proc/bus"; "/proc/bus"].

Definition dev_nodes (fs : list string) : list string :=
  flat_map (fun dev => if mem dev fs then ["--dev-bind"; dev; dev] else [])
           ["/dev/null"; "/dev/zero"; "/dev/random"; "/dev/urandom"].

Definition extra_paths : list string :=
  ["/usr/local/bin"; "/usr/local/sbin"; "/usr/local/lib"; "/usr/local/lib64";
   "/usr/local/share"; "/usr/lib/mozilla"; "/usr/lib/firefox"; "/usr/lib/chromium";
   "/run"; "/run/dbus"; "/run/user";
   "/usr/share/fonts"; "/usr/share/icons"; "/usr/share/themes"; "/var/cache/fontconfig";
   "/usr/share/applications"; "/usr/share/mime"; "/usr/share/X11"; "/usr/share/glib-2.0"].

Definition mount_extra (fs : list string) : list string :=
  flat_map (fun p => if mem p fs then ["--ro-bind"; p; p] else []) extra_paths.

Definition user_config_paths : list string :=
  ["~/.config"; "~/.local/share"; "~/.cache"; "~/.mozilla"; "~/.pki";
   "~/.chrome"; "~/.config/google-chrome"].

(** The writable-overlay loop over [user_config_paths]: the existence test
    sees the directories the earlier iterations created. *)
Fixpoint user_config_overlays (paths : list string) : M (list string) :=
  match paths with
  | [] => ret []
  | path :: ps =>
      let full_path := expanduser h path in
      ex <- read_fs (fun fs => Ok (mem full_path fs)) ;;
      here <- (if ex then
                 tds <- get_temp_dirs ;;
                 match tds with
                 | [] => raise IndexError
                 | t0 :: _ =>
                     let temp_path := path_join t0 (basename path) in
                     _ <- makedirs h temp_path ;;
                     ret ["--bind"; temp_path; full_path]
                 end
               else ret []) ;;
      more <- user_config_overlays ps ;;
      ret (here ++ more)%list
  end.

(** [FilesystemManager._setup_dbus] *)
Definition setup_dbus (fs : list string) : list string :=
  let dbus_socket := "/run/user/" ++ uid h ++ "/bus" in
  ((if mem "/run/dbus" fs then ["--bind"; "/run/dbus"; "/run/dbus"] else [])
   ++ (if mem dbus_socket fs then ["--bind"; dbus_socket; dbus_socket] else []))%list.

(** [FilesystemManager._setup_xdg_runtime] *)
Definition setup_xdg_runtime (fs : list string) : list string :=
  let user_runtime_dir := "/run/user/" ++ uid h in
  ((if mem user_runtime_dir fs then ["--bind"; user_runtime_dir; user_runtime_dir] else [])
   ++ ["--symlink"; "/proc/self/fd"; "/dev/fd";
       "--symlink"; "/proc/self/fd/0"; "/dev/stdin";
       "--symlink"; "/proc/self/fd/1"; "/dev/stdout";
       "--symlink"; "/proc/self/fd/2"; "/dev/stderr"])%list.

Definition app_dirs : list string :=
  [".config"; ".cache"; ".local/share"; ".mozilla"; ".pki"; ".chrome";
   ".config/google-chrome"; "Downloads"; "Documents"].

Fixpoint bind_dirs (base target : string) (dirs : list string) : M (list string) :=
  match dirs with
  | [] => ret []
  | d :: ds =>
      let dir_path := path_join base d in
      _ <- makedirs h dir_path ;;
      more <- bind_dirs base target ds ;;
      ret ("--bind" :: dir_path :: path_join target d :: more)
  end.

(** [FilesystemManager._setup_overlay] *)
Definition setup_overlay (rng : nat -> string) (cfg : IsolationConfig) : M (list string) :=
  let home := expanduser h "~" in
  match persist_dir cfg with
  | Some pd => bind_dirs pd home app_dirs
  | None =>
      temp_dir <- mkdtemp TMP_MAX rng ;;
      _ <- append_temp_dir temp_dir ;;
      bind_dirs temp_dir home [".config"; ".cache"; ".local/share"]
  end.

(** [FilesystemManager.setup] *)
Definition setup (rng : nat -> string) (cfg : IsolationConfig) : M (list string) :=
  tds <- create_temp_dirs rng cfg ;;
  _ <- set_temp_dirs tds ;;
  a1 <- read_fs (fun fs => Ok (mount_essential fs ++ dev_args ++ dev_nodes fs
                                ++ mount_extra fs)%list) ;;
  a2 <- user_config_overlays user_config_paths ;;
  a3 <- read_fs (fun fs => Ok (setup_dbus fs ++ setup_xdg_runtime fs)%list) ;;
  a4 <- (if overlay_enabled cfg then setup_overlay rng cfg else ret []) ;;
  let a5 := match tmp_dir cfg with
            | Some t => ["--bind"; t; "/tmp"]
            | None => ["--tmpfs"; "/tmp"]
            end in
  ret (a1 ++ a2 ++ a3 ++ a4 ++ a5 ++
       ["--setenv"; "PATH"; "/usr/local/sbin:/usr/local/bin:/usr/sbin:/usr/bin:/sbin:/bin"])%list.

End Filesystem.

(** ** DisplayManager *)

(** [os.environ[k]] *)
Definition environ_item (h : Host) (k : string) : res string :=
  match environ h k with Some v => Ok v | None => Err (KeyError k) end.

(** [DisplayManager._detect_display_server] *)
Definition detect_display_server (h : Host) : DisplayServer :=
  if truthy_str (environ h "WAYLAND_DISPLAY") then WAYLAND
  else if truthy_str (environ h "DISPLAY") then X11
  else UNKNOWN.

(** [DisplayManager.get_display_args] *)
Definition get_display_args (h : Host) (ds : DisplayServer) (fs : list string)
  : res (list string) :=
  match ds with
  | X11 =>
      let x11_socket := "/tmp/.X11-unix" in
      if mem x11_socket fs then
        match environ_item h "DISPLAY" with
        | Err e => Err e
        | Ok disp =>
            let xauth_path := expanduser h "~/.Xauthority" in
            Ok (["--bind"; x11_socket; x11_socket; "--setenv"; "DISPLAY"; disp]
                ++ (if mem xauth_path fs then ["--ro-bind"; xauth_path; xauth_path] else []))%list
        end
      else Ok []
  | WAYLAND =>
      let wayland_socket := path_join (getenv h "XDG_RUNTIME_DIR" "")
                                      (getenv h "WAYLAND_DISPLAY" "") in
      if mem wayland_socket fs then
        match environ_item h "WAYLAND_DISPLAY", environ_item h "XDG_RUNTIME_DIR" with
        | Ok w, Ok x =>
            Ok ["--bind"; wayland_socket; wayland_socket;
                "--setenv"; "WAYLAND_DISPLAY"; w; "--setenv"; "XDG_RUNTIME_DIR"; x]
        | Err e, _ | _, Err e => Err e
        end
      else Ok []
  | UNKNOWN => Ok []
  end.

(** ** SecurityManager (the one [ApplicationIsolator] uses) *)

Definition sm_base_args : list string :=
  ["--unshare-pid"; "--unshare-ipc"; "--unshare-uts"; "--new-session"; "--die-with-parent"].

(** [SecurityManager._get_browser_security_args] *)
Definition sm_browser_security_args (fs : list string) : list string :=
  (["--share-net"; "--unshare-user-try"; "--new-session"; "--cap-add"; "ALL";
    "--dev-bind"; "/dev/shm"; "/dev/shm"; "--bind"; "/tmp"; "/tmp";
    "--bind"; "/run"; "/run"]
   ++ (if mem "/usr/share/chromium/seccomp-filter.bpf" fs
       then ["--seccomp"; "9"; "/usr/share/chromium/seccomp-filter.bpf"] else []))%list.

(** [SecurityManager._get_default_security_args] *)
Definition sm_default_security_args (lvl : IsolationLevel) : list string :=
  (["--hostname"; "isolated"]
   ++ (if level_eqb lvl STRICT
       then ["--unshare-net"; "--unshare-cgroup-try"; "--unshare-user-try";
             "--cap-drop"; "ALL"]
       else []))%list.

(** The environment block of [get_security_args], in dict order; empty
    values are skipped. *)
Definition sm_env_args (h : Host) : list string :=
  flat_map (fun '((k, v) : string * string) =>
              if str_eqb v "" then [] else ["--setenv"; k; v])
    [("PATH", "/usr/local/sbin:/usr/local/bin:/usr/sbin:/usr/bin:/sbin:/bin");
     ("HOME", expanduser h "~");
     ("USER", getenv h "USER" "");
     ("LANG", getenv h "LANG" "C.UTF-8");
     ("TERM", getenv h "TERM" "xterm-256color")].

(** [SecurityManager.get_security_args] *)
Definition sm_get_security_args (h : Host) (fs : list string) (lvl : IsolationLevel)
    (prof : option ApplicationProfile) : list string :=
  (sm_base_args
   ++ (match prof with
       | Some BROWSER => sm_browser_security_args fs
       | _ => sm_default_security_args lvl
       end)
   ++ sm_env_args h)%list.

(** [SecurityManager.validate_security_config]: its two [isinstance]
    checks hold for every value of the typed fields, and nothing else is
    checked. *)
Definition sm_validate_security_config (lvl : IsolationLevel)
    (prof : option ApplicationProfile) : bool :=
  true.

(** ** EnhancedSecurityManager *)

Module Enhanced.

Definition seccomp_dir : string := "/etc/isolator/seccomp".

Definition base_security_args : list string :=
  ["--unshare-pid"; "--unshare-ipc"; "--unshare-uts"; "--proc"; "/proc";
   "--dev"; "/dev"; "--new-session"; "--die-with-parent"].

(** [_get_profile_security_args] *)
Definition profile_security_args (p : option ProfileConfig) : list string :=
  match p with
  | None => []
  | Some pr =>
      (flat_map (fun cap => ["--cap-add"; cap]) (pc_capabilities pr)
       ++ match pc_network_ports pr with
          | Some ports => flat_map (fun port => ["--add-port"; string_of_Z port]) ports
          | None => []
          end)%list
  end.

Definition needs_user_ns (p : option ProfileConfig) : bool :=
  match p with
  | None => true
  | Some pr => negb (mem "CAP_SYS_ADMIN" (pc_capabilities pr))
  end.

(** [_get_isolation_level_args] *)
Definition isolation_level_args (lvl : IsolationLevel) (p : option ProfileConfig)
  : list string :=
  match lvl with
  | STRICT =>
      (["--unshare-net"; "--unshare-cgroup-try"; "--cap-drop"; "ALL"]
       ++ (if needs_user_ns p
           then ["--unshare-user-try"; "--hostname"; "isolated"] else []))%list
  | STANDARD => ["--share-net"; "--unshare-user-try"; "--hostname"; "isolated"]
  | MINIMAL => []
  end.

(** [_get_seccomp_args] *)
Definition seccomp_args (fs : list string) (p : option ProfileConfig) : list string :=
  let default_profile := path_join seccomp_dir "default.bpf" in
  let fallback :=
    if mem default_profile fs then ["--seccomp"; "9"; default_profile] else [] in
  match p with
  | Some pr =>
      match pc_seccomp_profile pr with
      | Some sp =>
          if negb (str_eqb sp "") && mem (path_join seccomp_dir sp) fs
          then ["--seccomp"; "9"; path_join seccomp_dir sp] else fallback
      | None => fallback
      end
  | None => fallback
  end.

(** [get_security_args] *)
Definition get_security_args (fs : list string) (lvl : IsolationLevel)
    (p : option ProfileConfig) : list string :=
  (base_security_args ++ profile_security_args p ++ isolation_level_args lvl p
   ++ seccomp_args fs p)%list.

(** [validate_security_config]: the first bad capability or port raises
    [SecurityError], which the handler turns into [False]. *)
Definition validate_security_config (p : option ProfileConfig) : bool :=
  match p with
  | None => true
  | Some pr =>
      forallb (fun cap => startswith cap "CAP_") (pc_capabilities pr)
      && match pc_network_ports pr with
         | Some ports => forallb (fun port => (0 <=? port)%Z && (port <=? 65535)%Z) ports
         | None => true
         end
  end.

End Enhanced.

(** ** ResourceManager *)

(** Python truthiness of an optional int: present and non-zero. *)
Definition truthy_Z (o : option Z) : bool :=
  match o with Some n => negb (Z.eqb n 0) | None => false end.

Definition opt_val {A} (d : A) (o : option A) : A :=
  match o with Some a => a | None => d end.

(** [_validate_cgroup_support]: [cgroup_version] is only set when the
    cgroup root exists ([None] = the attribute was never assigned). *)
Definition detect_cgroup_version (fs : list string) : option Z :=
  if mem "/sys/fs/cgroup" fs then
    Some (if mem "/sys/fs/cgroup/cgroup.controllers" fs then 2%Z else 1%Z)
  else None.

Definition rbind {A B} (r : res A) (k : A -> res B) : res B :=
  match r with Ok a => k a | Err e => Err e end.

(** [_setup_cgroup] *)
Definition setup_cgroup (l : ResourceLimits) (cgv : option Z) : res (list string) :=
  match cgv with
  | None => Err (AttributeError "cgroup_version")
  | Some v =>
      let mem_args path :=
        if truthy_str (memory_limit l)
        then rbind (parse_size (opt_val "" (memory_limit l)))
               (fun b => Ok ["--bind-data"; string_of_Z b; path])
        else Ok [] in
      if Z.eqb v 2 then
        rbind (mem_args "/sys/fs/cgroup/memory.max") (fun m =>
        Ok ((if truthy_Z (cpu_limit l)
             then ["--bind-data"; string_of_Z (opt_val 0%Z (cpu_limit l)); "/sys/fs/cgroup/cpu.max"]
             else [])
            ++ m
            ++ (if truthy_Z (io_weight l)
                then ["--bind-data"; string_of_Z (opt_val 0%Z (io_weight l)); "/sys/fs/cgroup/io.weight"]
                else []))%list)
      else
        rbind (mem_args "/sys/fs/cgroup/memory/memory.limit_in_bytes") (fun m =>
        Ok ((if truthy_Z (cpu_limit l)
             then ["--bind-data"; string_of_Z (opt_val 0%Z (cpu_limit l) * 1000);
                   "/sys/fs/cgroup/cpu/cpu.cfs_quota_us"]
             else [])
            ++ m)%list)
  end.

(** [get_resource_args] *)
Definition get_resource_args (l : ResourceLimits) (cgv : option Z) : res (list string) :=
  let a1 := if truthy_Z (max_processes l)
            then ["--rlimit"; "nproc=" ++ string_of_Z (opt_val 0%Z (max_processes l))] else [] in
  let a2 := if truthy_Z (max_files l)
            then ["--rlimit"; "nofile=" ++ string_of_Z (opt_val 0%Z (max_files l))] else [] in
  rbind (if truthy_str (max_file_size l)
         then rbind (parse_size (opt_val "" (max_file_size l)))
                (fun b => Ok ["--rlimit"; "fsize=" ++ string_of_Z b])
         else Ok []) (fun a3 =>
  rbind (if truthy_str (memory_limit l)
         then rbind (parse_size (opt_val "" (memory_limit l)))
                (fun b => Ok ["--rlimit"; "as=" ++ string_of_Z b])
         else Ok []) (fun a4 =>
  rbind (setup_cgroup l cgv) (fun a5 =>
  Ok (a1 ++ a2 ++ a3 ++ a4 ++ a5)%list))).

(** ** ApplicationIsolator *)

(** The isolator after [__init__]: its configuration, the display server
    detected by [DisplayManager()], and the [ResourceManager]'s limits and
    [cgroup_version]. *)
Record Isolator := {
  iso_config : IsolationConfig;
  iso_display_server : DisplayServer;
  iso_limits : ResourceLimits;
  iso_cgroup_version : option Z
}.

(** [ApplicationIsolator.__init__], given the profiles the
    [ProfileManager] loaded ([get_profile]) and the paths that exist. *)
Definition isolator_init (h : Host) (get_profile : string -> option ProfileConfig)
    (fs : list string) (cfg : IsolationConfig) : Isolator :=
  let profile_config :=
    match profile cfg with
    | Some p => get_profile (profile_str p)
    | None => None
    end in
  {| iso_config := cfg;
     iso_display_server := detect_display_server h;
     iso_limits := match profile_config with
                   | Some pc => opt_val no_limits (pc_resource_limits pc)
                   | None => no_limits
                   end;
     iso_cgroup_version := detect_cgroup_version fs |}.

Definition lift_res {A} (r : res A) : M A := fun st => (r, st).

Section Isolator.
Variable h : Host.
Variable rng : nat -> string.

(** [ApplicationIsolator._prepare_bwrap_args]; [SecurityError] is not
    bound in isolator.py, so the raise would itself be a [NameError]. *)
Definition prepare_bwrap_args (iso : Isolator) : M (list string) :=
  let cfg := iso_config iso in
  if sm_validate_security_config (isolation_level cfg) (profile cfg) then
    fs_args <- setup h rng cfg ;;
    disp <- (if gui_enabled cfg
             then read_fs (get_display_args h (iso_display_server iso))
             else ret []) ;;
    sec <- read_fs (fun fs => Ok (sm_get_security_args h fs (isolation_level cfg) (profile cfg))) ;;
    rsc <- lift_res (get_resource_args (iso_limits iso) (iso_cgroup_version iso)) ;;
    ret ("bwrap" :: fs_args ++ disp ++ sec ++ rsc ++ app_command cfg)%list
  else raise (NameError "SecurityError").

Definition with_config (iso : Isolator) (cfg : IsolationConfig) : Isolator :=
  {| iso_config := cfg; iso_display_server := iso_display_server iso;
     iso_limits := iso_limits iso; iso_cgroup_version := iso_cgroup_version iso |}.

(** The compilation part of [ApplicationIsolator.run]: resolve the command,
    store it in the configuration, prepare the arguments. *)
Definition compile (iso : Isolator) : M (list string) :=
  resolved <- read_fs (fun fs => resolve_command h fs (app_command (iso_config iso))) ;;
  prepare_bwrap_args (with_config iso (with_command (iso_config iso) resolved)).

Definition browser_env_args : list string :=
  ["--setenv"; "CHROME_SANDBOX"; "1";
   "--setenv"; "CHROME_WRAPPER"; "1";
   "--setenv"; "CHROME_DISABLE_SETUID_SANDBOX"; "1"].

(** What [subprocess.Popen(...).wait()] does: the child exits with a code,
    the wait is interrupted ([KeyboardInterrupt]), or another exception
    escapes ([CalledProcessError] with its code, anything else). *)
Inductive exec_outcome :=
| Exited (code : Z)
| Interrupted
| ProcessError (returncode : Z)
| Failed.

(** [ApplicationIsolator._execute_bwrap] *)
Definition execute_code (o : exec_outcome) : Z :=
  match o with
  | Exited c => c
  | Interrupted => 130
  | ProcessError rc => rc
  | Failed => 1
  end.

(** The child process: given the argument list and the paths that exist,
    its outcome and the paths that exist when it is over. *)
Variable exec_child : list string -> list string -> exec_outcome * list string.

(** [ApplicationIsolator.cleanup]: the filesystem manager's cleanup; the
    resource manager's cleanup and [monitor_resources] touch no path
    ([cgroup_path] is never assigned, so nothing is removed there). *)
Definition cleanup (st : St) : St := fs_cleanup st.

(** [ApplicationIsolator.run]: [try ... except Exception: return 1
    finally: self.cleanup()]. *)
Definition run (iso : Isolator) (st : St) : Z * St :=
  let '(r, st1) := compile iso st in
  let '(code, st2) :=
    match r with
    | Ok args =>
        let args' :=
          match profile (iso_config iso) with
          | Some BROWSER => (args ++ browser_env_args)%list
          | _ => args
          end in
        let '(o, fs') := exec_child args' (st_fs st1) in
        (execute_code o, set_fs fs' st1)
    | Err _ => (1%Z, st1)
    end in
  (code, cleanup st2).

End Isolator.

(** A freshly constructed isolator's state: no temporary directory yet. *)
Definition fresh_state (fs : list string) (next : nat) : St :=
  {| st_fs := fs; st_next := next; st_temp_dirs := []; st_created := [] |}.

(** ** ProfileManager._load_profiles (config/profiles.py) *)

(** A profile document as [yaml.safe_load] and [ProfileConfig(...)] see it:
    a profile, or the exception raised while reading or building it. *)
Inductive profile_doc :=
| Parsed (p : ProfileConfig)
| Malformed (e : exn).

(** The global names bound in config/profiles.py: its imports and the two
    classes it defines. *)
Definition profiles_module_globals : list string :=
  ["dataclass"; "Dict"; "List"; "Optional"; "os"; "yaml"; "Path";
   "ProfileConfig"; "ProfileManager"].

(** Evaluating [logging.error(...)] in that module: the name [logging] is
    looked up among the module's globals (it is not a builtin). *)
Definition profiles_logging_error : res unit :=
  if mem "logging" profiles_module_globals then Ok tt else Err (NameError "logging").

(** [self.profiles[name] = profile] *)
Fixpoint dict_set (d : list (string * ProfileConfig)) (k : string) (v : ProfileConfig)
  : list (string * ProfileConfig) :=
  match d with
  | [] => [(k, v)]
  | (k', v') :: r => if str_eqb k k' then (k, v) :: r else (k', v') :: dict_set r k v
  end.

Fixpoint load_docs (docs : list profile_doc) (d : list (string * ProfileConfig))
  : res (list (string * ProfileConfig)) :=
  match docs with
  | [] => Ok d
  | Parsed p :: r => load_docs r (dict_set d (pc_name p) p)
  | Malformed _ :: r =>
      match profiles_logging_error with
      | Ok _ => load_docs r d
      | Err e => Err e
      end
  end.

(** [_load_profiles]: each configuration directory is [None] when it does
    not exist, else the documents its [*.yaml] glob yields, in order. *)
Fixpoint load_profiles (config_paths : list (option (list profile_doc)))
    (d : list (string * ProfileConfig)) : res (list (string * ProfileConfig)) :=
  match config_paths with
  | [] => Ok d
  | None :: r => load_profiles r d
  | Some docs :: r =>
      match load_docs docs d with
      | Ok d' => load_profiles r d'
      | Err e => Err e
      end
  end.

(** ** Sample inputs *)

(** A host with home [/home/u], uid 1000, [USER=u] and an X11 [DISPLAY],
    whose password database knows the user [u] only, on which [which echo]
    answers [/usr/bin/echo] (any other name: [CalledProcessError]) and
    every missing directory can be created. *)
Definition host_ex : Host :=
  {| home_env := "/home/u"; uid := "1000";
     environ := fun k => if str_eqb k "USER" then Some "u"
                         else if str_eqb k "DISPLAY" then Some ":0" else None;
     user_home := fun n => if str_eqb n "u" then Some "/home/u" else None;
     which := fun n => if str_eqb n "echo" then WhichFound "/usr/bin/echo" else WhichNotFound;
     is_executable := fun _ => true;
     walk_find := fun _ _ => None;
     mkdir_error := fun _ => None |}.

Definition fs_ex : list string :=
  ["/proc"; "/sys"; "/usr"; "/bin"; "/etc"; "/home/u"; "/home/u/.config";
   "/dev/null"; "/run"; "/sys/fs/cgroup"; "/sys/fs/cgroup/cgroup.controllers"; "/tmp"].

(** Two streams of random names for [mkdtemp]. *)
Definition rng_a (n : nat) : string := "/tmp/tmpa" ++ string_of_Z (Z.of_nat n).
Definition rng_b (n : nat) : string := "/tmp/tmpb" ++ string_of_Z (Z.of_nat n).

(** [IsolationConfig(app_command=["echo", "hi"], isolation_level=MINIMAL)]
    with the remaining defaults. *)
Definition cfg_echo : IsolationConfig :=
  {| app_command := ["echo"; "hi"]; persist_dir := None; network_enabled := true;
     gui_enabled := true; isolation_level := MINIMAL; tmp_dir := None;
     overlay_enabled := true; debug := false; profile := None;
     resource_limits := None |}.

Definition no_profiles (_ : string) : option ProfileConfig := None.

Definition iso_echo : Isolator := isolator_init host_ex no_profiles fs_ex cfg_echo.

(** The same request with an explicit [tmp_dir] and overlays disabled. *)
Definition cfg_echo_tmp : IsolationConfig :=
  {| app_command := ["echo"; "hi"]; persist_dir := None; network_enabled := true;
     gui_enabled := true; isolation_level := MINIMAL; tmp_dir := Some "/home/u/scratch";
     overlay_enabled := false; debug := false; profile := None;
     resource_limits := None |}.

Definition iso_echo_tmp : Isolator := isolator_init host_ex no_profiles fs_ex cfg_echo_tmp.

(** [host_ex] without a [which] executable: running [which] raises
    [FileNotFoundError]. *)
Definition host_nowhich : Host :=
  {| home_env := home_env host_ex; uid := uid host_ex; environ := environ host_ex;
     user_home := user_home host_ex;
     which := fun _ => WhichRaises (OSError "FileNotFoundError");
     is_executable := is_executable host_ex; walk_find := walk_find host_ex;
     mkdir_error := mkdir_error host_ex |}.

Definition iso_nowhich_tmp : Isolator :=
  isolator_init host_nowhich no_profiles fs_ex cfg_echo_tmp.

(** [fs_ex] with the user's scratch directory and a file in it. *)
Definition fs_scratch : list string :=
  (fs_ex ++ ["/home/u/scratch"; "/home/u/scratch/notes"])%list.

Definition cfg_empty : IsolationConfig := with_command cfg_echo [].

(** A child that is interrupted after writing into the sandbox's
    temporary directory. *)
Definition exec_interrupted (_ : list string) (fs : list string)
  : exec_outcome * list string :=
  (Interrupted, (fs ++ ["/tmp/tmpa0/.config/app.conf"; "/home/u/scratch/out"])%list).

(** The three writable overlay binds [_setup_overlay] emits for a
    temporary directory [d] over the home directory [home]. *)
Definition temp_overlay_binds (d home : string) : list string :=
  ["--bind"; path_join d ".config"; path_join home ".config";
   "--bind"; path_join d ".cache"; path_join home ".cache";
   "--bind"; path_join d ".local/share"; path_join home ".local/share"].

(** ** Invariant of the run: temporary-directory bookkeeping

    [temp_dirs_grow st st']: the list [temp_dirs] only grew, and every
    directory [mkdtemp] created meanwhile is in it. *)
Definition temp_dirs_grow (st st' : St) : Prop :=
  incl (st_temp_dirs st) (st_temp_dirs st') /\
  (forall d, In d (st_created st') -> In d (st_created st) \/ In d (st_temp_dirs st')).

Definition keeps_temp_dirs {A} (m : M A) : Prop :=
  forall st r st', m st = (r, st') -> temp_dirs_grow st st'.

(** A profile with the given capabilities and ports, for the validator. *)
Definition test_profile (caps : list string) (ports : option (list Z)) : ProfileConfig :=
  {| pc_name := "test"; pc_mounts := []; pc_devices := []; pc_capabilities := caps;
     pc_env_vars := []; pc_seccomp_profile := None; pc_network_ports := ports;
     pc_resource_limits := None |}.

(** ** The command-line entry point (__main__.py) *)

(** The namespace [parse_args] returns, with [--profile] and
    [--isolation-level] already mapped to the enumerations as [main] does
    ([ApplicationProfile[args.profile.upper()]],
    [IsolationLevel[args.isolation_level.upper()]]); [nargs="+"] makes
    argparse itself reject an empty command. *)
Record CliArgs := {
  cli_command : list string;
  cli_profile : option ApplicationProfile;
  cli_persist : option string;
  cli_no_network : bool;
  cli_no_gui : bool;
  cli_isolation_level : IsolationLevel;
  cli_memory : option string;
  cli_cpu : option Z;
  cli_io_weight : option Z;
  cli_max_processes : option Z;
  cli_debug : bool
}.

(** The [resource_limits] [main] builds: only when one of the four options
    is truthy. *)
Definition cli_resource_limits (a : CliArgs) : option ResourceLimits :=
  if truthy_str (cli_memory a) || truthy_Z (cli_cpu a) || truthy_Z (cli_io_weight a)
     || truthy_Z (cli_max_processes a)
  then Some {| memory_limit := cli_memory a; cpu_limit := cli_cpu a;
               io_weight := cli_io_weight a; max_processes := cli_max_processes a;
               max_file_size := None; max_files := None |}
  else None.

(** [d.get(k)] on a dict kept as an association list with unique keys. *)
Fixpoint dict_get {V} (d : list (string * V)) (k : string) : option V :=
  match d with
  | [] => None
  | (k', v) :: r => if str_eqb k' k then Some v else dict_get r k
  end.

(** [main()]: builds the configuration ([tmp_dir] and [overlay_enabled]
    keep their defaults), constructs the isolator, whose [ProfileManager]
    loads [catalog] (the outcome of [_load_profiles]), and runs it; the code
    goes to [sys.exit].  An exception escapes [main]. *)
Definition main (h : Host) (catalog : res (list (string * ProfileConfig)))
    (rng : nat -> string) (exec : list string -> list string -> exec_outcome * list string)
    (a : CliArgs) (st : St) : res Z * St :=
  match mk_config h (cli_command a) (cli_persist a) (negb (cli_no_network a))
          (negb (cli_no_gui a)) (cli_isolation_level a) None true (cli_debug a)
          (cli_profile a) (cli_resource_limits a) st with
  | (Err e, st1) => (Err e, st1)
  | (Ok cfg, st1) =>
      match catalog with
      | Err e => (Err e, st1)
      | Ok d =>
          let '(code, st2) := run h rng exec (isolator_init h (dict_get d) (st_fs st1) cfg) st1 in
          (Ok code, st2)
      end
  end.

(** ** RequirementsManager.detect_profile *)

(** [c.lower()] on one ASCII character. *)
Definition lower (c : ascii) : ascii :=
  let n := nat_of_ascii c in
  if Nat.leb 65 n && Nat.leb n 90 then ascii_of_nat (n + 32) else c.

Fixpoint lower_string (s : string) : string :=
  match s with
  | EmptyString => EmptyString
  | String c r => String (lower c) (lower_string r)
  end.

Fixpoint upper_string (s : string) : string :=
  match s with
  | EmptyString => EmptyString
  | String c r => String (upper c) (upper_string r)
  end.

(** [pat in s] for strings: [pat] occurs in [s]. *)
Fixpoint contains (pat s : string) : bool :=
  String.prefix pat s ||
  match s with
  | EmptyString => false
  | String _ r => contains pat r
  end.

Definition browser_names : list string := ["chrome"; "firefox"; "chromium"; "opera"; "brave"].
Definition multimedia_names : list string := ["vlc"; "mpv"; "audacity"; "obs"].
Definition development_names : list string := ["code"; "idea"; "pycharm"; "eclipse"].
Definition graphics_names : list string := ["gimp"; "inkscape"; "krita"; "blender"].

Definition detect_profile (command : string) : ApplicationProfile :=
  let cmd_base := lower_string (basename command) in
  if existsb (fun b => contains b cmd_base) browser_names then BROWSER
  else if existsb (fun a => contains a cmd_base) multimedia_names then MULTIMEDIA
  else if existsb (fun a => contains a cmd_base) development_names then DEVELOPMENT
  else if existsb (fun a => contains a cmd_base) graphics_names then GRAPHICS
  else BASIC.

(** ** FilesystemManager._setup_environment *)

(** [d[k] = v] on an insertion-ordered dict: an existing key keeps its
    place. *)
Fixpoint env_update_one (d : list (string * string)) (k v : string) : list (string * string) :=
  match d with
  | [] => [(k, v)]
  | (k', v') :: r => if str_eqb k' k then (k', v) :: r else (k', v') :: env_update_one r k v
  end.

(** [d.update(u)] *)
Definition env_update (d u : list (string * string)) : list (string * string) :=
  fold_left (fun acc '((k, v) : string * string) => env_update_one acc k v) u d.

(** The dict literal [_setup_environment] starts from;
    [self.user_runtime_dir] is [os.path.join('/run/user', str(os.getuid()))]. *)
Definition environment_defaults (h : Host) : list (string * string) :=
  let user_runtime_dir := path_join "/run/user" (uid h) in
  [("PATH", "/usr/local/sbin:/usr/local/bin:/usr/sbin:/usr/bin:/sbin:/bin");
   ("XDG_RUNTIME_DIR", user_runtime_dir);
   ("DBUS_SESSION_BUS_ADDRESS", "unix:path=" ++ user_runtime_dir ++ "/bus")].

Definition setup_environment (h : Host) (profile_env : list (string * string)) : list string :=
  flat_map (fun '((k, v) : string * string) => ["--setenv"; k; v])
           (env_update (environment_defaults h) profile_env).

(** The [--setenv] pairs of an argument list made of [--setenv k v]
    triples, in order: what bubblewrap reads back from it. *)
Fixpoint setenv_pairs (args : list string) : list (string * string) :=
  match args with
  | o :: k :: v :: r => if str_eqb o "--setenv" then (k, v) :: setenv_pairs r else []
  | _ => []
  end.

(** ** ProfileManager: the catalog on disk (config/profiles.py) *)

(** The profile manager's dict and the part of the disk it touches: the
    existing paths and the contents of the files. *)
Record ProfileStore := {
  ps_profiles : list (string * ProfileConfig);
  ps_paths : list string;
  ps_files : list (string * string)
}.

(** How a profile-manager method ends: it returns, raises, or [open] raises
    [FileNotFoundError] for a missing directory. *)
Inductive pm_outcome :=
| Returned (b : bool)
| Raised (e : exn)
| RaisedFileNotFound (path : string).

(** Evaluating [dataclasses.asdict(...)] in config/profiles.py: the name
    [dataclasses] is looked up among the module's globals. *)
Definition profiles_dataclasses : res unit :=
  if mem "dataclasses" profiles_module_globals then Ok tt else Err (NameError "dataclasses").

(** [Path.home() / ".config" / "isolator" / "profiles"] *)
Definition user_profiles_dir (h : Host) : string :=
  path_join (path_join (path_join (expanduser h "~") ".config") "isolator") "profiles".

Definition etc_profiles_dir : string := "/etc/isolator/profiles".

(** [config_dir / f"{config.name}.yaml"] *)
Definition profile_file (h : Host) (name : string) : string :=
  path_join (user_profiles_dir h) (name ++ ".yaml").

Fixpoint file_write (files : list (string * string)) (p c : string) : list (string * string) :=
  match files with
  | [] => [(p, c)]
  | (q, c') :: r => if str_eqb q p then (q, c) :: r else (q, c') :: file_write r p c
  end.

(** [with open(profile_path, "w") as f: yaml.dump(dataclasses.asdict(config), f)]
    followed by [self.profiles[config.name] = config]: [open] needs the
    directory and creates or truncates the file before the dump is
    evaluated; [dump] stands for [yaml.dump] of the dict. *)
Definition write_profile (dump : ProfileConfig -> string) (config_dir profile_path : string)
    (config : ProfileConfig) (ps : ProfileStore) : pm_outcome * ProfileStore :=
  if mem config_dir (ps_paths ps) then
    let ps1 := {| ps_profiles := ps_profiles ps;
                  ps_paths := add_path (ps_paths ps) profile_path;
                  ps_files := file_write (ps_files ps) profile_path "" |} in
    match profiles_dataclasses with
    | Err e => (Raised e, ps1)
    | Ok _ =>
        (Returned true,
         {| ps_profiles := dict_set (ps_profiles ps1) (pc_name config) config;
            ps_paths := ps_paths ps1;
            ps_files := file_write (ps_files ps1) profile_path (dump config) |})
    end
  else (RaisedFileNotFound profile_path, ps).

(** [ProfileManager.create_profile] *)
Definition create_profile (h : Host) (dump : ProfileConfig -> string) (config : ProfileConfig)
    (ps : ProfileStore) : pm_outcome * ProfileStore :=
  match dict_get (ps_profiles ps) (pc_name config) with
  | Some _ => (Returned false, ps)
  | None =>
      let config_dir := user_profiles_dir h in
      let ps1 := {| ps_profiles := ps_profiles ps;
                    ps_paths := fold_left add_path (dir_chain config_dir) (ps_paths ps);
                    ps_files := ps_files ps |} in
      write_profile dump config_dir (profile_file h (pc_name config)) config ps1
  end.

(** [ProfileManager.update_profile] *)
Definition update_profile (h : Host) (dump : ProfileConfig -> string) (config : ProfileConfig)
    (ps : ProfileStore) : pm_outcome * ProfileStore :=
  match dict_get (ps_profiles ps) (pc_name config) with
  | None => (Returned false, ps)
  | Some _ =>
      write_profile dump (user_profiles_dir h) (profile_file h (pc_name config)) config ps
  end.

(** One document as [_load_profiles] reads it: [yaml.safe_load] gives
    [None] for an empty or blank file, and building a [ProfileConfig] by
    keyword expansion of [None] raises [TypeError]; any other content is
    judged by [parse]. *)
Definition load_profile_doc (parse : string -> profile_doc) (content : string) : profile_doc :=
  if str_eqb (strip content) "" then Malformed TypeError else parse content.

(** [s.endswith(suf)] *)
Definition endswith (s suf : string) : bool :=
  String.prefix (rev_string suf) (rev_string s).

(** The rest of [s] after the prefix [pre], if [s] starts with it. *)
Fixpoint drop_prefix (pre s : string) : option string :=
  match pre, s with
  | EmptyString, _ => Some s
  | String c r, String c' r' => if Ascii.eqb c c' then drop_prefix r r' else None
  | String _ _, EmptyString => None
  end.

(** The files [dir.glob("*.yaml")] yields: direct children of [dir] whose
    name ends in [.yaml], in the store's order. *)
Definition yaml_files (dir : string) (files : list (string * string)) : list (string * string) :=
  filter (fun '((p, _) : string * string) =>
            match drop_prefix (dir ++ "/") p with
            | Some name => negb (contains "/" name) && endswith name ".yaml"
            | None => false
            end) files.

(** [ProfileManager()] on the store: [_load_profiles] over [/etc] then the
    user directory. *)
Definition load_store (h : Host) (parse : string -> profile_doc) (ps : ProfileStore)
  : res (list (string * ProfileConfig)) :=
  load_profiles
    (map (fun dir =>
            if mem dir (ps_paths ps)
            then Some (map (fun '((_, c) : string * string) => load_profile_doc parse c)
                           (yaml_files dir (ps_files ps)))
            else None)
         [etc_profiles_dir; user_profiles_dir h]) [].

(** The profiles of the present directories' well-formed documents, in
    loading order. *)
Definition parsed_docs (config_paths : list (option (list profile_doc))) : list ProfileConfig :=
  flat_map (fun o => match o with
                     | Some docs => flat_map (fun doc => match doc with
                                                         | Parsed p => [p]
                                                         | Malformed _ => []
                                                         end) docs
                     | None => []
                     end) config_paths.

(** The last profile of [ps] named [k]. *)
Definition last_named (k : string) (ps : list ProfileConfig) : option ProfileConfig :=
  fold_left (fun acc p => if str_eqb (pc_name p) k then Some p else acc) ps None.

(** A decimal digit, as [digit_val] reads it. *)
Definition is_digit (c : ascii) : bool :=
  Nat.leb 48 (nat_of_ascii c) && Nat.leb (nat_of_ascii c) 57.

(** The value of a string of decimal digits. *)
Definition digits_value (ds : list ascii) : Z :=
  fold_left (fun a c => (a * 10 + Z.of_nat (nat_of_ascii c - 48))%Z) ds 0%Z.

(** What [k] successive [mkdtemp] attempts from position [n] may end in:
    the first candidate not in [fs], every earlier one being in it, or
    none after [k] candidates, all of them in [fs]. *)
Definition attempts_spec (rng : nat -> string) (k : nat) (fs : list string) (n : nat)
    (r : option string * nat) : Prop :=
  match r with
  | (Some d, m) =>
      exists i, i < k /\ d = rng (n + i) /\ m = S (n + i) /\ mem d fs = false /\
                (forall j, j < i -> mem (rng (n + j)) fs = true)
  | (None, m) => m = n + k /\ (forall j, j < k -> mem (rng (n + j)) fs = true)
  end.

(** ** Further sample inputs *)

(** [fs_ex] without the cgroup root. *)
Definition fs_nocg : list string :=
  ["/proc"; "/sys"; "/usr"; "/bin"; "/etc"; "/home/u"; "/dev/null"; "/run"; "/tmp"].

(** Limits of 1G of memory, 2 CPUs and an I/O weight of 100. *)
Definition limits_ex : ResourceLimits :=
  {| memory_limit := Some "1G"; cpu_limit := Some 2%Z; io_weight := Some 100%Z;
     max_processes := None; max_file_size := None; max_files := None |}.

(** A profile naming an absolute seccomp filter. *)
Definition profile_abs_seccomp : ProfileConfig :=
  {| pc_name := "custom"; pc_mounts := []; pc_devices := []; pc_capabilities := [];
     pc_env_vars := []; pc_seccomp_profile := Some "/home/u/filter.bpf";
     pc_network_ports := None; pc_resource_limits := None |}.


(** * Proofs *)

(** ** Size parsing *)

Example parse_size_2G : parse_size "2G" = Ok 2147483648%Z.
Proof. reflexivity. Qed.
Example parse_size_500m : parse_size " 500m" = Ok 524288000%Z.
Proof. reflexivity. Qed.
Example parse_size_half : parse_size "1.5K" = Ok 1536%Z.
Proof. reflexivity. Qed.
Example parse_size_bad : parse_size "xG" = Err (ValueError "Invalid size format: xG").
Proof. reflexivity. Qed.

(** C4 (counterexample): the code strips the string before looking at its
    last character, so ["5G "], whose final character is a space, parses to
    a value; and an unknown unit raises the "Invalid size unit" error, not
    the "Invalid size format" one. *)
Lemma C4_counterexample :
  parse_size "5G " = Ok 5368709120%Z /\
  parse_size "5X" = Err (ValueError "Invalid size unit in 5X") /\
  parse_size "5X" <> Err (ValueError "Invalid size format: 5X").
Proof.
  split; [reflexivity|]. split; [reflexivity|]. discriminate.
Qed.

(** C4: ["2G"] parses to 2147483648 and ["500M"] (or ["500m"]) to
    524288000 bytes; every string whose last character after stripping
    surrounding whitespace is, upper-cased, none of B, K, M, G, T fails
    with [ValueError("Invalid size unit in ...")] and returns no value. *)
Theorem C4_parse_size_spec (s : string) (c : ascii)
    (Hlast : last_char (strip s) = Ok c) (Hunit : size_units (upper c) = None) :
  parse_size "2G" = Ok 2147483648%Z /\
  parse_size "500M" = Ok 524288000%Z /\
  parse_size "500m" = Ok 524288000%Z /\
  parse_size s = Err (ValueError ("Invalid size unit in " ++ s)).
Proof.
  split; [reflexivity|]. split; [reflexivity|]. split; [reflexivity|].
  unfold parse_size. rewrite Hlast. cbv zeta. rewrite Hunit. reflexivity.
Qed.

Lemma C4_parse_size_spec_witness :
  last_char (strip "5X") = Ok "X"%char /\ size_units (upper "X"%char) = None /\
  parse_size "5X" = Err (ValueError ("Invalid size unit in " ++ "5X")).
Proof.
  split; [reflexivity|]. split; [reflexivity|].
  apply (C4_parse_size_spec "5X" "X"%char); reflexivity.
Defined.

(** C10: on the empty string (and on a blank one) [_parse_size] fails by
    the [IndexError] of [size[-1]], not by any [ValueError]. *)
Theorem C10_parse_size_empty_index_error :
  parse_size "" = Err IndexError /\
  parse_size "   " = Err IndexError /\
  (forall msg, parse_size "" <> Err (ValueError msg)).
Proof.
  split; [reflexivity|]. split; [reflexivity|].
  intros msg. discriminate.
Qed.

(** ** Security validation *)

(** C5: the enhanced validation accepts ["CAP_NET_ADMIN"] and rejects
    ["net_admin"], accepts ports 0 and 65535 and rejects -1 and 65536; in
    general it succeeds exactly when every capability starts with ["CAP_"]
    and every port lies in [0, 65535], so any rejection makes it fail. *)
Theorem C5_validate_security_config :
  Enhanced.validate_security_config (Some (test_profile ["CAP_NET_ADMIN"] None)) = true /\
  Enhanced.validate_security_config (Some (test_profile ["net_admin"] None)) = false /\
  Enhanced.validate_security_config (Some (test_profile [] (Some [0; 65535]%Z))) = true /\
  Enhanced.validate_security_config (Some (test_profile [] (Some [(-1)%Z]))) = false /\
  Enhanced.validate_security_config (Some (test_profile [] (Some [65536%Z]))) = false /\
  (forall pr, Enhanced.validate_security_config (Some pr) = true <->
     (forall cap, In cap (pc_capabilities pr) -> startswith cap "CAP_" = true) /\
     (forall ports port, pc_network_ports pr = Some ports -> In port ports ->
        (0 <= port <= 65535)%Z)).
Proof.
  do 5 (split; [reflexivity|]).
  intros pr. split.
  - intros Hv. simpl in Hv. apply andb_prop in Hv as [Hc Hp']. split.
    + intros cap Hin. rewrite forallb_forall in Hc. auto.
    + intros ports port Hp Hin. rewrite Hp in Hp'. rewrite forallb_forall in Hp'.
      apply Hp' in Hin. apply andb_prop in Hin as [H1 H2].
      apply Z.leb_le in H1. apply Z.leb_le in H2. lia.
  - intros [Hc Hp]. simpl. apply andb_true_intro. split.
    + apply forallb_forall. exact Hc.
    + destruct (pc_network_ports pr) as [ports|] eqn:E; [|reflexivity].
      apply forallb_forall. intros port Hin.
      specialize (Hp ports port eq_refl Hin).
      apply andb_true_intro; split; apply Z.leb_le; lia.
Qed.

(** ** Profile catalog loading *)

(** C6 (code defect): a malformed document sends [_load_profiles] into its
    [except] handler, whose [logging.error] raises [NameError] because
    config/profiles.py never imports [logging]; the whole load aborts and
    the well-formed document after the bad one is never loaded. *)
Theorem C6_malformed_profile_aborts_load (p1 p2 : ProfileConfig) :
  load_profiles [Some [Parsed p1; Malformed TypeError; Parsed p2]] [] =
    Err (NameError "logging").
Proof. reflexivity. Qed.

(** ** Empty command *)

(** C7: building the configuration with an empty command raises
    [ValueError] before the persist directory is created (the state is
    untouched), and compiling an isolator whose command is empty raises
    [ValueError] before any argument is produced or any directory made. *)
Theorem C7_empty_command (h : Host) (rng : nat -> string) (iso : Isolator) (st : St)
    (Hempty : app_command (iso_config iso) = []) :
  compile h rng iso st = (Err (ValueError "Empty command provided"), st) /\
  (forall persist net gui lvl tmp overlay dbg prof limits,
     mk_config h [] persist net gui lvl tmp overlay dbg prof limits st =
       (Err (ValueError "Application command cannot be empty"), st)).
Proof.
  split.
  - unfold compile, bind, read_fs. rewrite Hempty. reflexivity.
  - intros. reflexivity.
Qed.

Lemma C7_empty_command_witness :
  app_command (iso_config (with_config iso_echo cfg_empty)) = [] /\
  compile host_ex rng_a (with_config iso_echo cfg_empty) (fresh_state fs_ex 0) =
    (Err (ValueError "Empty command provided"), fresh_state fs_ex 0).
Proof.
  split; [reflexivity|].
  apply (C7_empty_command host_ex rng_a (with_config iso_echo cfg_empty) (fresh_state fs_ex 0)).
  reflexivity.
Defined.

(** ** Security arguments at the STRICT level *)

(** C1 (counterexample): in the run pipeline's [SecurityManager], a STRICT
    request with the BROWSER profile gets the browser arguments: the
    network is shared, nothing is dropped, user-namespace isolation is
    still attempted.  In [EnhancedSecurityManager], a profile holding
    [CAP_SYS_ADMIN] still gets [--cap-drop ALL], after its [--cap-add]. *)
Lemma C1_counterexample :
  ~ In "--unshare-net" (sm_get_security_args host_ex fs_ex STRICT (Some BROWSER)) /\
  ~ In "--cap-drop" (sm_get_security_args host_ex fs_ex STRICT (Some BROWSER)) /\
  In "--unshare-user-try" (sm_get_security_args host_ex fs_ex STRICT (Some BROWSER)) /\
  Enhanced.get_security_args fs_ex STRICT (Some (test_profile ["CAP_SYS_ADMIN"] None)) =
    ["--unshare-pid"; "--unshare-ipc"; "--unshare-uts"; "--proc"; "/proc";
     "--dev"; "/dev"; "--new-session"; "--die-with-parent";
     "--cap-add"; "CAP_SYS_ADMIN";
     "--unshare-net"; "--unshare-cgroup-try"; "--cap-drop"; "ALL"].
Proof.
  split; [vm_compute; intuition discriminate|].
  split; [vm_compute; intuition discriminate|].
  split; [vm_compute; intuition discriminate|].
  reflexivity.
Qed.

Lemma browser_args_no_net_no_drop (fs : list string) :
  ~ In "--unshare-net" (sm_browser_security_args fs) /\
  ~ In "--cap-drop" (sm_browser_security_args fs).
Proof.
  unfold sm_browser_security_args.
  destruct (mem "/usr/share/chromium/seccomp-filter.bpf" fs); simpl;
    split; intuition discriminate.
Qed.

(** C1: with [SecurityManager] (the one the run uses), a STRICT request
    whose profile is not BROWSER unshares the network, cgroup and user
    namespaces and drops all capabilities; the BROWSER profile gets the
    browser arguments at every level, which neither unshare the network nor
    drop capabilities.  With [EnhancedSecurityManager], STRICT always emits
    [--unshare-net] and [--cap-drop ALL], after the [--cap-add] of every
    profile capability, and emits [--unshare-user-try] and the isolated
    hostname exactly when there is no profile or its capabilities do not
    include [CAP_SYS_ADMIN]. *)
Theorem C1_strict_security_args (h : Host) (fs : list string)
    (p : option ApplicationProfile) (Hp : p <> Some BROWSER) :
  sm_get_security_args h fs STRICT p =
    (sm_base_args ++ ["--hostname"; "isolated"; "--unshare-net"; "--unshare-cgroup-try";
                      "--unshare-user-try"; "--cap-drop"; "ALL"] ++ sm_env_args h)%list /\
  (forall lvl,
     sm_get_security_args h fs lvl (Some BROWSER) =
       (sm_base_args ++ sm_browser_security_args fs ++ sm_env_args h)%list /\
     ~ In "--unshare-net" (sm_browser_security_args fs) /\
     ~ In "--cap-drop" (sm_browser_security_args fs)) /\
  (forall pc,
     Enhanced.get_security_args fs STRICT pc =
       (Enhanced.base_security_args ++ Enhanced.profile_security_args pc ++
        ["--unshare-net"; "--unshare-cgroup-try"; "--cap-drop"; "ALL"] ++
        (if Enhanced.needs_user_ns pc
         then ["--unshare-user-try"; "--hostname"; "isolated"] else []) ++
        Enhanced.seccomp_args fs pc)%list /\
     Enhanced.needs_user_ns pc =
       match pc with
       | None => true
       | Some pr => negb (mem "CAP_SYS_ADMIN" (pc_capabilities pr))
       end).
Proof.
  split; [|split].
  - unfold sm_get_security_args.
    destruct p as [[]|]; try reflexivity. congruence.
  - intros lvl. split; [reflexivity|]. apply browser_args_no_net_no_drop.
  - intros pc. split; [|reflexivity].
    unfold Enhanced.get_security_args, Enhanced.isolation_level_args.
    rewrite <- !app_assoc. reflexivity.
Qed.

Lemma C1_strict_security_args_witness :
  (None : option ApplicationProfile) <> Some BROWSER /\
  sm_get_security_args host_ex fs_ex STRICT None =
    (sm_base_args ++ ["--hostname"; "isolated"; "--unshare-net"; "--unshare-cgroup-try";
                      "--unshare-user-try"; "--cap-drop"; "ALL"] ++ sm_env_args host_ex)%list.
Proof.
  split; [discriminate|].
  apply (C1_strict_security_args host_ex fs_ex None). discriminate.
Defined.

(** ** Determinism of compilation *)

(** C2 (counterexample): the same request compiled twice against the same
    filesystem gives different argument lists when [mkdtemp] draws
    different random names: the names of the fresh temporary directories
    are part of the overlay binds. *)
Lemma C2_counterexample :
  fst (compile host_ex rng_a iso_echo (fresh_state fs_ex 0)) <>
  fst (compile host_ex rng_b iso_echo (fresh_state fs_ex 0)).
Proof. vm_compute. discriminate. Qed.

Lemma setup_rng_independent (h : Host) (rng1 rng2 : nat -> string)
    (cfg : IsolationConfig) (t : string)
    (Htmp : tmp_dir cfg = Some t)
    (Hov : persist_dir cfg <> None \/ overlay_enabled cfg = false) :
  setup h rng1 cfg = setup h rng2 cfg.
Proof.
  unfold setup, create_temp_dirs. rewrite Htmp.
  destruct Hov as [Hp | Ho].
  - unfold setup_overlay. destruct (persist_dir cfg) as [pd|]; [|congruence].
    reflexivity.
  - rewrite Ho. reflexivity.
Qed.

(** C2: when the request supplies [tmp_dir] and either supplies a persist
    directory or disables overlays, compilation never calls [mkdtemp]: two
    compilations from the same state (same filesystem snapshot) give the
    same result and the same state, whatever random names [mkdtemp] would
    draw. *)
Theorem C2_compile_deterministic (h : Host) (rng1 rng2 : nat -> string)
    (iso : Isolator) (st : St) (t : string)
    (Htmp : tmp_dir (iso_config iso) = Some t)
    (Hov : persist_dir (iso_config iso) <> None \/ overlay_enabled (iso_config iso) = false) :
  compile h rng1 iso st = compile h rng2 iso st.
Proof.
  unfold compile, bind, read_fs.
  destruct (resolve_command h (st_fs st) (app_command (iso_config iso))) as [cmd|e];
    [|reflexivity].
  unfold prepare_bwrap_args.
  rewrite (setup_rng_independent h rng1 rng2
             (iso_config (with_config iso (with_command (iso_config iso) cmd))) t);
    [reflexivity | exact Htmp | exact Hov].
Qed.

Lemma C2_compile_deterministic_witness :
  tmp_dir (iso_config iso_echo_tmp) = Some "/home/u/scratch" /\
  compile host_ex rng_a iso_echo_tmp (fresh_state fs_ex 0) =
  compile host_ex rng_b iso_echo_tmp (fresh_state fs_ex 0).
Proof.
  split; [reflexivity|].
  apply (C2_compile_deterministic host_ex rng_a rng_b iso_echo_tmp
           (fresh_state fs_ex 0) "/home/u/scratch").
  - reflexivity.
  - right. reflexivity.
Defined.

(** ** Temporary-directory bookkeeping *)

Lemma grow_refl (st : St) : temp_dirs_grow st st.
Proof. split; [apply incl_refl | auto]. Qed.

Lemma grow_trans (s1 s2 s3 : St) :
  temp_dirs_grow s1 s2 -> temp_dirs_grow s2 s3 -> temp_dirs_grow s1 s3.
Proof.
  intros [I12 C12] [I23 C23]. split.
  - eapply incl_tran; eauto.
  - intros d Hd. destruct (C23 d Hd) as [H2|H3]; [|auto].
    destruct (C12 d H2) as [H1|H2']; auto.
Qed.

Lemma grow_set_fs (st st' : St) (fs : list string) :
  temp_dirs_grow st st' -> temp_dirs_grow st (set_fs fs st').
Proof. intros [I C]. split; simpl; auto. Qed.

Lemma keeps_bind {A B} (m : M A) (k : A -> M B) :
  keeps_temp_dirs m -> (forall a, keeps_temp_dirs (k a)) -> keeps_temp_dirs (bind m k).
Proof.
  intros Hm Hk st r st' H. unfold bind in H.
  destruct (m st) as [[a|e] st1] eqn:E.
  - eapply grow_trans; [eapply Hm; eexact E | eapply Hk; exact H].
  - injection H as _ <-. eapply Hm; exact E.
Qed.

Lemma keeps_ret {A} (a : A) : keeps_temp_dirs (ret a).
Proof. intros st r st' H. injection H as _ <-. apply grow_refl. Qed.

Lemma keeps_raise {A} (e : exn) : keeps_temp_dirs (@raise A e).
Proof. intros st r st' H. injection H as _ <-. apply grow_refl. Qed.

Lemma keeps_read_fs {A} (f : list string -> res A) : keeps_temp_dirs (read_fs f).
Proof. intros st r st' H. injection H as _ <-. apply grow_refl. Qed.

Lemma keeps_lift_res {A} (x : res A) : keeps_temp_dirs (lift_res x).
Proof. intros st r st' H. injection H as _ <-. apply grow_refl. Qed.

Lemma keeps_get_temp_dirs : keeps_temp_dirs get_temp_dirs.
Proof. intros st r st' H. injection H as _ <-. apply grow_refl. Qed.

Lemma keeps_makedirs (h : Host) (p : string) : keeps_temp_dirs (makedirs h p).
Proof.
  intros st r st' H. unfold makedirs in H.
  destruct (mkdir_chain h (dir_chain p) (st_fs st)) as [r' fs'].
  injection H as _ <-. apply grow_set_fs, grow_refl.
Qed.

Lemma keeps_append_temp_dir (d : string) : keeps_temp_dirs (append_temp_dir d).
Proof.
  intros st r st' H. injection H as _ <-. split; simpl.
  - intros x Hx. apply in_or_app. auto.
  - auto.
Qed.

(** What [mkdtemp] does to the bookkeeping: [temp_dirs] unchanged, the
    created directory (if any) logged. *)
Lemma mkdtemp_spec (tm : positive) (rng : nat -> string) (st : St) (r : res string) (st' : St) :
  mkdtemp tm rng st = (r, st') ->
  st_temp_dirs st' = st_temp_dirs st /\
  match r with
  | Ok d => st_created st' = d :: st_created st
  | Err _ => st_created st' = st_created st
  end.
Proof.
  unfold mkdtemp. destruct (mkdtemp_attempts _ _ _ _) as [[d|] n].
  - intros H. injection H as <- <-. simpl. auto.
  - intros H. injection H as <- <-. simpl. auto.
Qed.

Lemma keeps_mkdtemp_append (tm : positive) (rng : nat -> string) (k : string -> M (list string)) :
  (forall d, keeps_temp_dirs (k d)) ->
  keeps_temp_dirs (d <- mkdtemp tm rng ;; _ <- append_temp_dir d ;; k d).
Proof.
  intros Hk st r st' H. unfold bind at 1 in H.
  destruct (mkdtemp tm rng st) as [[d|e] st1] eqn:E;
    apply mkdtemp_spec in E as [Etd Ecr].
  - unfold bind, append_temp_dir in H.
    apply Hk in H as [I C]. simpl in I, C. split.
    + intros x Hx. apply I. apply in_or_app. left. congruence.
    + intros x Hx. destruct (C x Hx) as [Hc|Ht]; [|auto].
      rewrite Ecr in Hc. destruct Hc as [<-|Hc]; [|auto].
      right. apply I. apply in_or_app. right. left. reflexivity.
  - injection H as _ <-. split.
    + rewrite Etd. apply incl_refl.
    + rewrite Ecr. auto.
Qed.

Ltac keeps_tac :=
  repeat first
    [ apply keeps_mkdtemp_append; intro
    | apply keeps_bind; [|intro]
    | apply keeps_ret | apply keeps_raise | apply keeps_read_fs
    | apply keeps_lift_res | apply keeps_get_temp_dirs | apply keeps_makedirs
    | apply keeps_append_temp_dir
    | match goal with
      | |- keeps_temp_dirs (if ?b then _ else _) => destruct b
      | |- keeps_temp_dirs (match ?x with _ => _ end) => destruct x
      end ].

Lemma keeps_bind_dirs (h : Host) (base target : string) (dirs : list string) :
  keeps_temp_dirs (bind_dirs h base target dirs).
Proof. induction dirs as [|d ds IH]; simpl; keeps_tac; exact IH. Qed.

Lemma keeps_user_config_overlays (h : Host) (paths : list string) :
  keeps_temp_dirs (user_config_overlays h paths).
Proof. induction paths as [|p ps IH]; simpl; keeps_tac; exact IH. Qed.

Lemma keeps_setup_overlay (h : Host) (rng : nat -> string) (cfg : IsolationConfig) :
  keeps_temp_dirs (setup_overlay h rng cfg).
Proof.
  unfold setup_overlay. destruct (persist_dir cfg).
  - apply keeps_bind_dirs.
  - apply keeps_mkdtemp_append. intros d. apply keeps_bind_dirs.
Qed.

(** [setup] first replaces [temp_dirs]; everything after that only grows
    it. *)
Lemma setup_split (h : Host) (rng : nat -> string) (cfg : IsolationConfig) :
  exists rest : M (list string),
    keeps_temp_dirs rest /\
    setup h rng cfg =
      bind (create_temp_dirs rng cfg) (fun tds => bind (set_temp_dirs tds) (fun _ => rest)).
Proof.
  eexists. split; [|reflexivity].
  apply keeps_bind; [apply keeps_read_fs|intros a1].
  apply keeps_bind; [apply keeps_user_config_overlays|intros a2].
  apply keeps_bind; [apply keeps_read_fs|intros a3].
  apply keeps_bind; [|intros a4; apply keeps_ret].
  destruct (overlay_enabled cfg); [apply keeps_setup_overlay | apply keeps_ret].
Qed.

(** Run from a state where [mkdtemp] has created nothing yet, [setup]
    leaves every directory [mkdtemp] created in [temp_dirs], and an explicit
    [tmp_dir] is in [temp_dirs] too. *)
Lemma setup_records_temp_dirs (h : Host) (rng : nat -> string) (cfg : IsolationConfig)
    (st : St) (r : res (list string)) (st' : St) :
  st_created st = [] ->
  setup h rng cfg st = (r, st') ->
  (forall d, In d (st_created st') -> In d (st_temp_dirs st')) /\
  (forall t, tmp_dir cfg = Some t -> In t (st_temp_dirs st')).
Proof.
  intros Hc H.
  destruct (setup_split h rng cfg) as [rest [Hrest Heq]].
  rewrite Heq in H. clear Heq.
  unfold bind at 1 in H. unfold create_temp_dirs in H.
  destruct (tmp_dir cfg) as [t|] eqn:Et.
  - unfold ret, bind, set_temp_dirs in H.
    apply Hrest in H as [I C]. simpl in I, C. rewrite Hc in C. split.
    + intros d Hd. destruct (C d Hd) as [[]|]; auto.
    + intros t' Ht'. injection Ht' as <-. apply I. left. reflexivity.
  - split; [|discriminate].
    unfold bind at 1 in H.
    destruct (mkdtemp TMP_MAX rng st) as [[d|e] st1] eqn:E;
      apply mkdtemp_spec in E as [Etd Ecr].
    + unfold ret, bind, set_temp_dirs in H.
      apply Hrest in H as [I C]. simpl in I, C.
      intros x Hx. destruct (C x Hx) as [Hx'|]; [|auto].
      rewrite Ecr, Hc in Hx'. destruct Hx' as [<-|[]].
      apply I. left. reflexivity.
    + injection H as _ <-. rewrite Ecr, Hc. intros x [].
Qed.

(** [resolve_command] succeeds on a non-empty command unless its first
    token is relative and [which] raises. *)
Lemma resolve_command_resolves (h : Host) (fs : list string) (b : string)
    (rest : list string) :
  isabs b = true \/ (forall e, which h b <> WhichRaises e) ->
  exists c, resolve_command h fs (b :: rest) = Ok c.
Proof.
  intros Hw. unfold resolve_command.
  destruct (isabs b) eqn:Ea; [eauto|].
  destruct (which h b) as [fp| |e] eqn:Ew; [eauto| |].
  - destruct (search_common h fs b rest search_paths); eauto.
  - destruct Hw as [Hw|Hw]; [discriminate Hw|]. exfalso. exact (Hw e eq_refl).
Qed.

Lemma compile_records_temp_dirs (h : Host) (rng : nat -> string) (iso : Isolator)
    (st : St) (r : res (list string)) (st' : St) :
  st_created st = [] ->
  compile h rng iso st = (r, st') ->
  (forall d, In d (st_created st') -> In d (st_temp_dirs st')) /\
  (forall t, (exists c, resolve_command h (st_fs st) (app_command (iso_config iso)) = Ok c) ->
             tmp_dir (iso_config iso) = Some t ->
             In t (st_temp_dirs st')).
Proof.
  intros Hc H. unfold compile, bind at 1, read_fs in H.
  destruct (resolve_command h (st_fs st) (app_command (iso_config iso))) as [cmd|e] eqn:Er.
  - unfold prepare_bwrap_args in H. cbn [sm_validate_security_config] in H.
    unfold bind at 1 in H.
    destruct (setup h rng _ st) as [[a|e] st1] eqn:Es;
      apply setup_records_temp_dirs in Es as [C1 T1]; try exact Hc.
    + assert (K : temp_dirs_grow st1 st').
      { revert H. apply keeps_bind.
        - destruct (gui_enabled _); [apply keeps_read_fs | apply keeps_ret].
        - intros disp. keeps_tac. }
      destruct K as [I C]. split.
      * intros d Hd. destruct (C d Hd); auto.
      * intros t _ Ht. apply I, T1. exact Ht.
    + injection H as _ <-. split; [exact C1|].
      intros t _ Ht. apply T1. exact Ht.
  - injection H as _ <-. split.
    + rewrite Hc. intros d [].
    + intros t [c Ec] _. congruence.
Qed.

(** After [FilesystemManager.cleanup] nothing is left in the tree of any
    directory of [temp_dirs]. *)
Lemma fold_rmtree_removes (ds fs : list string) (q : string) :
  In q (fold_left (fun fs d => snd (rmtree d fs)) ds fs) ->
  In q fs /\ forall d, In d ds -> under d q = false.
Proof.
  revert fs. induction ds as [|d ds IH]; intros fs Hq; simpl in Hq.
  - split; [exact Hq | intros d []].
  - apply IH in Hq as [Hq Hall]. apply filter_In in Hq as [Hq Hnd].
    split; [exact Hq|]. intros d' [<-|Hd'].
    + apply negb_true_iff. exact Hnd.
    + apply Hall. exact Hd'.
Qed.

Lemma cleanup_removes_temp_dirs (st : St) (d q : string) :
  In d (st_temp_dirs st) -> In q (st_fs (cleanup st)) -> under d q = false.
Proof.
  intros Hd Hq. unfold cleanup, fs_cleanup in Hq. simpl in Hq.
  apply fold_rmtree_removes in Hq as [_ Hall]. apply Hall. exact Hd.
Qed.

Lemma run_state (h : Host) (rng : nat -> string)
    (exec : list string -> list string -> exec_outcome * list string)
    (iso : Isolator) (st : St) :
  exists fs', snd (run h rng exec iso st) = cleanup (set_fs fs' (snd (compile h rng iso st))).
Proof.
  unfold run. destruct (compile h rng iso st) as [[args|e] st1]; simpl.
  - destruct (exec _ _) as [o fs']. exists fs'. reflexivity.
  - exists (st_fs st1). destruct st1; reflexivity.
Qed.

(** ** Cleanup on every exit path *)





(** ** The [echo hi] request end to end *)

Lemma bind_ok_inv {A B} (m : M A) (k : A -> M B) (st : St) (b : B) (st' : St) :
  bind m k st = (Ok b, st') ->
  exists a st1, m st = (Ok a, st1) /\ k a st1 = (Ok b, st').
Proof.
  unfold bind. destruct (m st) as [[a|e] st1]; [eauto | discriminate].
Qed.

Lemma search_common_shape (h : Host) (fs : list string) (name : string)
    (rest paths c : list string) :
  search_common h fs name rest paths = Some c -> exists p, c = p :: rest.
Proof.
  induction paths as [|path ps IH]; simpl; [discriminate|].
  destruct (mem (path_join path name) fs && is_executable h (path_join path name)).
  - intros H. injection H as <-. eauto.
  - destruct (if mem path fs then walk_find h path name else None) as [p|].
    + intros H. injection H as <-. eauto.
    + exact IH.
Qed.

(** [resolve_command] only replaces the first token. *)
Lemma resolve_command_shape (h : Host) (fs : list string) (b : string)
    (rest c : list string) :
  resolve_command h fs (b :: rest) = Ok c -> exists p, c = p :: rest.
Proof.
  unfold resolve_command.
  destruct (isabs b); [intros H; injection H as <-; eauto|].
  destruct (which h b) as [fp| |e]; [intros H; injection H as <-; eauto| |discriminate].
  destruct (search_common h fs b rest search_paths) as [c'|] eqn:E.
  - intros H. injection H as <-. eapply search_common_shape. exact E.
  - intros H. injection H as <-. eauto.
Qed.

Lemma makedirs_created (h : Host) (p : string) (st : St) (r : res unit) (st' : St) :
  makedirs h p st = (r, st') ->
  st_created st' = st_created st /\ st_temp_dirs st' = st_temp_dirs st.
Proof.
  unfold makedirs. destruct (mkdir_chain h (dir_chain p) (st_fs st)) as [r' fs'].
  intros H. injection H as _ <-. split; reflexivity.
Qed.

Lemma bind_dirs_spec (h : Host) (base target : string) (dirs : list string) (st : St)
    (a : list string) (st' : St) :
  bind_dirs h base target dirs st = (Ok a, st') ->
  a = flat_map (fun x => ["--bind"; path_join base x; path_join target x]) dirs /\
  st_created st' = st_created st.
Proof.
  revert st a. induction dirs as [|x xs IH]; intros st a H; simpl in H.
  - injection H as <- <-. auto.
  - apply bind_ok_inv in H as [u [s1 [H1 H]]].
    apply bind_ok_inv in H as [more [s2 [H2 H]]].
    apply makedirs_created in H1 as [C1 _]. injection H as <- <-.
    apply IH in H2 as [-> Hc]. split; [reflexivity|]. rewrite Hc. exact C1.
Qed.

Lemma resource_args_no_limits (cgv : option Z) (r : list string) :
  get_resource_args no_limits cgv = Ok r -> r = [].
Proof.
  unfold get_resource_args, setup_cgroup. destruct cgv as [v|]; simpl; [|discriminate].
  destruct (Z.eqb v 2); simpl; intros H; injection H as <-; reflexivity.
Qed.

(** With overlays enabled and no persist directory, [setup] binds a
    directory freshly created by [mkdtemp] over the home directory's
    [.config], [.cache] and [.local/share]. *)
Lemma setup_temp_overlay (h : Host) (rng : nat -> string) (cfg : IsolationConfig)
    (st : St) (a : list string) (st' : St)
    (Hov : overlay_enabled cfg = true) (Hpd : persist_dir cfg = None) :
  setup h rng cfg st = (Ok a, st') ->
  exists d pre post,
    a = (pre ++ temp_overlay_binds d (expanduser h "~") ++ post)%list /\
    In d (st_created st').
Proof.
  intros H. unfold setup in H.
  apply bind_ok_inv in H as [tds [s1 [_ H]]].
  apply bind_ok_inv in H as [u [s2 [_ H]]].
  apply bind_ok_inv in H as [a1 [s3 [_ H]]].
  apply bind_ok_inv in H as [a2 [s4 [_ H]]].
  apply bind_ok_inv in H as [a3 [s5 [_ H]]].
  apply bind_ok_inv in H as [a4 [s6 [H6 H]]].
  rewrite Hov in H6. unfold setup_overlay in H6. rewrite Hpd in H6.
  apply bind_ok_inv in H6 as [d [s7 [H7 H6]]].
  apply bind_ok_inv in H6 as [u' [s8 [H8 H6]]].
  apply mkdtemp_spec in H7 as [_ C7].
  injection H8 as _ <-.
  apply bind_dirs_spec in H6 as [-> C6].
  injection H as <- <-.
  exists d, (a1 ++ a2 ++ a3)%list,
    (match tmp_dir cfg with
     | Some t => ["--bind"; t; "/tmp"]
     | None => ["--tmpfs"; "/tmp"]
     end ++ ["--setenv"; "PATH"; "/usr/local/sbin:/usr/local/bin:/usr/sbin:/usr/bin:/sbin:/bin"])%list.
  split.
  - rewrite <- !app_assoc. reflexivity.
  - rewrite C6. simpl. rewrite C7. left. reflexivity.
Qed.

(** C3 (counterexample): on a host where [which echo] answers
    [/usr/bin/echo], the compiled plan for [echo hi] at MINIMAL ends with
    [/usr/bin/echo hi], not [echo hi], and, overlays being enabled by
    default, binds the fresh temporary directory [/tmp/tmpa1] writable
    over [~/.config], [~/.cache] and [~/.local/share]. *)
Lemma C3_counterexample :
  fst (compile host_ex rng_a iso_echo (fresh_state fs_ex 0)) = Ok
    ["bwrap"; "--bind"; "/proc"; "/proc"; "--ro-bind"; "/sys"; "/sys";
     "--ro-bind"; "/usr"; "/usr"; "--ro-bind"; "/bin"; "/bin";
     "--ro-bind"; "/etc"; "/etc"; "--bind"; "/home/u"; "/home/u";
     "--dev-bind"; "/dev"; "/dev"; "--dev-bind"; "/dev/shm"; "/dev/shm";
     "--bind"; "/proc/self"; "/proc/self"; "--bind"; "/proc/sys";
     "/proc/sys"; "--bind"; "/proc/sysrq-trigger";
     "/proc/sysrq-trigger"; "--bind"; "/proc/irq"; "/proc/irq";
     "--bind"; "/proc/bus"; "/proc/bus"; "--dev-bind"; "/dev/null";
     "/dev/null"; "--ro-bind"; "/run"; "/run"; "--bind";
     "/tmp/tmpa0/.config"; "/home/u/.config"; "--symlink";
     "/proc/self/fd"; "/dev/fd"; "--symlink"; "/proc/self/fd/0";
     "/dev/stdin"; "--symlink"; "/proc/self/fd/1"; "/dev/stdout";
     "--symlink"; "/proc/self/fd/2"; "/dev/stderr"; "--bind";
     "/tmp/tmpa1/.config"; "/home/u/.config"; "--bind";
     "/tmp/tmpa1/.cache"; "/home/u/.cache"; "--bind";
     "/tmp/tmpa1/.local/share"; "/home/u/.local/share"; "--tmpfs";
     "/tmp"; "--setenv"; "PATH";
     "/usr/local/sbin:/usr/local/bin:/usr/sbin:/usr/bin:/sbin:/bin";
     "--unshare-pid"; "--unshare-ipc"; "--unshare-uts"; "--new-session";
     "--die-with-parent"; "--hostname"; "isolated"; "--setenv"; "PATH";
     "/usr/local/sbin:/usr/local/bin:/usr/sbin:/usr/bin:/sbin:/bin";
     "--setenv"; "HOME"; "/home/u"; "--setenv"; "USER"; "u"; "--setenv";
     "LANG"; "C.UTF-8"; "--setenv"; "TERM"; "xterm-256color";
     "/usr/bin/echo"; "hi"].
Proof. vm_compute. reflexivity. Qed.

(** C3: whenever compiling [echo hi] (default configuration, MINIMAL, no
    profile) succeeds, the plan is [bwrap], then the filesystem rules,
    the display rules, the basic manager's namespace rules (unsharing only
    pid, ipc and uts, plus the fixed hostname and environment) and no
    resource rules, then the command with its first token replaced by
    [resolve_command]'s answer; and the filesystem rules contain writable
    binds of a directory created by [mkdtemp] over [~/.config],
    [~/.cache] and [~/.local/share]. *)
Theorem C3_echo_hi_plan (h : Host) (rng : nat -> string)
    (get_profile : string -> option ProfileConfig)
    (fs : list string) (n : nat) :
  match compile h rng (isolator_init h get_profile fs cfg_echo) (fresh_state fs n) with
  | (Ok args, st') =>
      exists p fs_args disp d pre post,
        resolve_command h fs ["echo"; "hi"] = Ok [p; "hi"] /\
        args = ("bwrap" :: fs_args ++ disp ++
                 (sm_base_args ++ ["--hostname"; "isolated"] ++ sm_env_args h) ++
                 [p; "hi"])%list /\
        fs_args = (pre ++ temp_overlay_binds d (expanduser h "~") ++ post)%list /\
        In d (st_created st')
  | (Err _, _) => True
  end.
Proof.
  destruct (compile h rng (isolator_init h get_profile fs cfg_echo) (fresh_state fs n))
    as [[args|e] st'] eqn:H; [|exact I].
  unfold compile in H.
  apply bind_ok_inv in H as [cmd [s0 [H0 H]]].
  assert (Er : resolve_command h fs ["echo"; "hi"] = Ok cmd)
    by (unfold read_fs in H0; injection H0 as Hres _; exact Hres).
  unfold read_fs in H0. injection H0 as _ <-.
  rename cmd into c.
  destruct (resolve_command_shape h fs "echo" ["hi"] c Er) as [p ->].
  unfold prepare_bwrap_args in H. simpl sm_validate_security_config in H.
  cbv iota in H.
  apply bind_ok_inv in H as [fs_args [s1 [Hs H]]].
  apply bind_ok_inv in H as [disp [s2 [Hd H]]].
  apply bind_ok_inv in H as [sec [s3 [Hsec H]]].
  apply bind_ok_inv in H as [rsc [s4 [Hr H]]].
  cbn [gui_enabled iso_config with_config with_command cfg_echo mk_config] in Hd.
  unfold read_fs in Hd. injection Hd as _ <-.
  unfold read_fs in Hsec. injection Hsec as <- <-.
  unfold lift_res in Hr. simpl iso_limits in Hr.
  destruct (get_resource_args no_limits _) as [r|e] eqn:Hrs in Hr; [|discriminate].
  injection Hr as <- <-. apply resource_args_no_limits in Hrs. subst r.
  injection H as <- <-.
  apply setup_temp_overlay in Hs as [d [pre [post [Hfs Hin]]]];
    [|reflexivity|reflexivity].
  exists p, fs_args, disp, d, pre, post.
  split; [exact Er|]. split; [|split; [exact Hfs | exact Hin]].
  simpl. rewrite app_nil_r. reflexivity.
Qed.

(** ** Further properties of the code *)

Lemma fold_rmtree_filter (ds fs : list string) :
  fold_left (fun fs d => snd (rmtree d fs)) ds fs =
  filter (fun q => forallb (fun d => negb (under d q)) ds) fs.
Proof.
  revert fs. induction ds as [|d ds IH]; intros fs; simpl.
  - induction fs as [|q fs IHf]; simpl; [reflexivity|]. rewrite <- IHf. reflexivity.
  - rewrite IH. clear IH. induction fs as [|q fs IHf]; simpl; [reflexivity|].
    destruct (under d q); simpl.
    + exact IHf.
    + destruct (forallb (fun d0 => negb (under d0 q)) ds); simpl; rewrite IHf; reflexivity.
Qed.

Lemma filter_idem {A} (f : A -> bool) (l : list A) : filter f (filter f l) = filter f l.
Proof.
  induction l as [|x l IH]; simpl; [reflexivity|].
  destruct (f x) eqn:E; simpl; [rewrite E, IH|]; auto.
Qed.

Lemma forallb_under_iff (ds : list string) (q : string) :
  forallb (fun d => negb (under d q)) ds = true <-> (forall d, In d ds -> under d q = false).
Proof.
  rewrite forallb_forall. split; intros H d Hd; specialize (H d Hd).
  - apply negb_true_iff. exact H.
  - apply negb_true_iff. exact H.
Qed.


(** What a successful compilation is made of. *)
Lemma compile_ok_inv (h : Host) (rng : nat -> string) (iso : Isolator) (st : St)
    (args : list string) (st' : St) :
  compile h rng iso st = (Ok args, st') ->
  exists cmd fs_args disp rsc,
    resolve_command h (st_fs st) (app_command (iso_config iso)) = Ok cmd /\
    setup h rng (with_command (iso_config iso) cmd) st = (Ok fs_args, st') /\
    (if gui_enabled (iso_config iso)
     then get_display_args h (iso_display_server iso) (st_fs st') = Ok disp
     else disp = []) /\
    get_resource_args (iso_limits iso) (iso_cgroup_version iso) = Ok rsc /\
    args = ("bwrap" :: fs_args ++ disp
            ++ sm_get_security_args h (st_fs st') (isolation_level (iso_config iso))
                                    (profile (iso_config iso))
            ++ rsc ++ cmd)%list.
Proof.
  intros H. unfold compile in H.
  apply bind_ok_inv in H as [cmd [s0 [H0 H]]].
  assert (Er : resolve_command h (st_fs st) (app_command (iso_config iso)) = Ok cmd)
    by (unfold read_fs in H0; injection H0 as Hres _; exact Hres).
  unfold read_fs in H0. injection H0 as _ <-.
  unfold prepare_bwrap_args in H. cbn [sm_validate_security_config] in H.
  apply bind_ok_inv in H as [fs_args [s1 [Hs H]]].
  apply bind_ok_inv in H as [disp [s2 [Hd H]]].
  apply bind_ok_inv in H as [sec [s3 [Hsec H]]].
  apply bind_ok_inv in H as [rsc [s4 [Hr H]]].
  cbn [iso_config with_config iso_display_server iso_limits iso_cgroup_version] in Hs, Hd, Hsec, Hr, H.
  assert (Ed : if gui_enabled (iso_config iso)
               then get_display_args h (iso_display_server iso) (st_fs s1) = Ok disp
               else disp = []).
  { destruct (gui_enabled (iso_config iso)) eqn:Eg; cbn [with_command gui_enabled] in Hd;
      rewrite Eg in Hd.
    - unfold read_fs in Hd. injection Hd as Hres _. exact Hres.
    - unfold ret in Hd. injection Hd as Hres _. symmetry. exact Hres. }
  assert (E2 : s2 = s1).
  { destruct (gui_enabled _) in Hd; [unfold read_fs in Hd | unfold ret in Hd];
      injection Hd as _ E; symmetry; exact E. }
  subst s2. unfold read_fs in Hsec. injection Hsec as <- <-.
  assert (Erc : get_resource_args (iso_limits iso) (iso_cgroup_version iso) = Ok rsc)
    by (unfold lift_res in Hr; injection Hr as Hres _; exact Hres).
  unfold lift_res in Hr. injection Hr as _ <-.
  unfold ret in H. injection H as <- <-.
  exists cmd, fs_args, disp, rsc.
  split; [exact Er|]. split; [exact Hs|]. split; [exact Ed|]. split; [exact Erc|].
  reflexivity.
Qed.

Lemma resource_args_no_cgroup (l : ResourceLimits) : exists e, get_resource_args l None = Err e.
Proof.
  unfold get_resource_args, setup_cgroup, rbind.
  destruct (if truthy_str (max_file_size l) then _ else _) as [a3|e]; [|eauto].
  destruct (if truthy_str (memory_limit l) then _ else _) as [a4|e]; eauto.
Qed.

(** X: when the cgroup root [/sys/fs/cgroup] does not exist,
    [_validate_cgroup_support] never assigns [cgroup_version] and
    [_setup_cgroup] raises [AttributeError] (or a size error comes first):
    every compilation fails, [run] returns 1 without starting the child, and
    its final state is the cleanup of the compilation's state. *)
Theorem run_without_cgroup_root (h : Host) (rng : nat -> string)
    (exec : list string -> list string -> exec_outcome * list string)
    (get_profile : string -> option ProfileConfig) (fs : list string) (n : nat)
    (cfg : IsolationConfig)
    (Hno : mem "/sys/fs/cgroup" fs = false) :
  exists e st1,
    compile h rng (isolator_init h get_profile fs cfg) (fresh_state fs n) = (Err e, st1) /\
    run h rng exec (isolator_init h get_profile fs cfg) (fresh_state fs n) = (1%Z, cleanup st1).
Proof.
  destruct (compile h rng (isolator_init h get_profile fs cfg) (fresh_state fs n))
    as [[args|e] st1] eqn:Ec.
  - exfalso. apply compile_ok_inv in Ec as (cmd & fs_args & disp & rsc & _ & _ & _ & Hr & _).
    cbn [isolator_init iso_cgroup_version iso_limits] in Hr.
    unfold detect_cgroup_version in Hr. rewrite Hno in Hr.
    destruct (resource_args_no_cgroup (match
                 match profile cfg with
                 | Some p => get_profile (profile_str p)
                 | None => None
                 end with
               | Some pc => opt_val no_limits (pc_resource_limits pc)
               | None => no_limits
               end)) as [e He].
    rewrite He in Hr. discriminate Hr.
  - exists e, st1. split; [reflexivity|]. unfold run. rewrite Ec. reflexivity.
Qed.

Lemma run_without_cgroup_root_witness :
  mem "/sys/fs/cgroup" fs_nocg = false /\
  exists e st1,
    compile host_ex rng_a (isolator_init host_ex no_profiles fs_nocg cfg_echo)
            (fresh_state fs_nocg 0) = (Err e, st1) /\
    run host_ex rng_a exec_interrupted (isolator_init host_ex no_profiles fs_nocg cfg_echo)
        (fresh_state fs_nocg 0) = (1%Z, cleanup st1).
Proof.
  split; [reflexivity|].
  apply (run_without_cgroup_root host_ex rng_a exec_interrupted no_profiles fs_nocg 0 cfg_echo).
  reflexivity.
Defined.

(** X: with a memory limit, a CPU limit and an I/O weight (and no process,
    file or file-size limit), the resource rules are the address-space
    rlimit of the parsed memory size followed by the cgroup rules: on cgroup
    v2 CPU, memory and I/O weight; on cgroup v1 the CPU quota (times 1000)
    and memory only, the I/O weight being dropped. *)
Theorem resource_args_memory_cpu_io (l : ResourceLimits) (s : string) (b c w : Z)
    (Hm : memory_limit l = Some s) (Hs : s <> "") (Hp : parse_size s = Ok b)
    (Hc : cpu_limit l = Some c) (Hc0 : c <> 0%Z)
    (Hw : io_weight l = Some w) (Hw0 : w <> 0%Z)
    (Hnp : max_processes l = None) (Hnf : max_files l = None)
    (Hfs : max_file_size l = None) :
  get_resource_args l (Some 2%Z) =
    Ok ["--rlimit"; "as=" ++ string_of_Z b;
        "--bind-data"; string_of_Z c; "/sys/fs/cgroup/cpu.max";
        "--bind-data"; string_of_Z b; "/sys/fs/cgroup/memory.max";
        "--bind-data"; string_of_Z w; "/sys/fs/cgroup/io.weight"] /\
  get_resource_args l (Some 1%Z) =
    Ok ["--rlimit"; "as=" ++ string_of_Z b;
        "--bind-data"; string_of_Z (c * 1000); "/sys/fs/cgroup/cpu/cpu.cfs_quota_us";
        "--bind-data"; string_of_Z b; "/sys/fs/cgroup/memory/memory.limit_in_bytes"].
Proof.
  assert (E1 : str_eqb s "" = false) by (apply String.eqb_neq; exact Hs).
  assert (E2 : Z.eqb c 0 = false) by (apply Z.eqb_neq; exact Hc0).
  assert (E3 : Z.eqb w 0 = false) by (apply Z.eqb_neq; exact Hw0).
  unfold get_resource_args, setup_cgroup, truthy_str, truthy_Z, opt_val.
  rewrite Hm, Hc, Hw, Hnp, Hnf, Hfs, E1, E2, E3, Hp.
  split; reflexivity.
Qed.

Lemma resource_args_memory_cpu_io_witness :
  parse_size "1G" = Ok 1073741824%Z /\
  get_resource_args limits_ex (Some 2%Z) =
    Ok ["--rlimit"; "as=" ++ string_of_Z 1073741824;
        "--bind-data"; string_of_Z 2; "/sys/fs/cgroup/cpu.max";
        "--bind-data"; string_of_Z 1073741824; "/sys/fs/cgroup/memory.max";
        "--bind-data"; string_of_Z 100; "/sys/fs/cgroup/io.weight"] /\
  get_resource_args limits_ex (Some 1%Z) =
    Ok ["--rlimit"; "as=" ++ string_of_Z 1073741824;
        "--bind-data"; string_of_Z (2 * 1000); "/sys/fs/cgroup/cpu/cpu.cfs_quota_us";
        "--bind-data"; string_of_Z 1073741824; "/sys/fs/cgroup/memory/memory.limit_in_bytes"].
Proof.
  split; [vm_compute; reflexivity|].
  apply (resource_args_memory_cpu_io limits_ex "1G" 1073741824 2 100);
    try reflexivity; try discriminate.
Defined.

(** X: a memory limit that [_parse_size] rejects makes [get_resource_args]
    raise that same error, whatever the cgroup version (even an unassigned
    one), provided no [max_file_size] is set (whose error would come
    first). *)
Theorem resource_args_memory_parse_error (l : ResourceLimits) (s : string) (e : exn)
    (cgv : option Z)
    (Hm : memory_limit l = Some s) (Hs : s <> "") (Hp : parse_size s = Err e)
    (Hfs : truthy_str (max_file_size l) = false) :
  get_resource_args l cgv = Err e.
Proof.
  assert (E1 : str_eqb s "" = false) by (apply String.eqb_neq; exact Hs).
  unfold get_resource_args. rewrite Hfs. cbn [rbind].
  unfold truthy_str at 1. rewrite Hm, E1. cbn [negb]. unfold opt_val. rewrite Hp.
  reflexivity.
Qed.

Lemma resource_args_memory_parse_error_witness :
  parse_size "xG" = Err (ValueError "Invalid size format: xG") /\
  get_resource_args
    {| memory_limit := Some "xG"; cpu_limit := None; io_weight := None;
       max_processes := Some 64%Z; max_file_size := None; max_files := None |} None
  = Err (ValueError "Invalid size format: xG").
Proof.
  split; [vm_compute; reflexivity|].
  apply (resource_args_memory_parse_error _ "xG"); try reflexivity; try discriminate.
Defined.

(** X: [EnhancedSecurityManager._get_seccomp_args] joins the profile's
    [seccomp_profile] to [/etc/isolator/seccomp] with [os.path.join], so an
    absolute [seccomp_profile] that exists is used as it is, from outside
    the seccomp directory. *)
Theorem seccomp_absolute_profile_used (fs : list string) (pr : ProfileConfig) (sp : string)
    (Hsp : pc_seccomp_profile pr = Some sp) (Habs : isabs sp = true)
    (Hex : mem sp fs = true) :
  Enhanced.seccomp_args fs (Some pr) = ["--seccomp"; "9"; sp].
Proof.
  unfold Enhanced.seccomp_args. rewrite Hsp.
  assert (Ej : path_join Enhanced.seccomp_dir sp = sp) by (unfold path_join; rewrite Habs; reflexivity).
  rewrite Ej, Hex. destruct sp as [|c r]; [discriminate Habs|]. reflexivity.
Qed.

Lemma seccomp_absolute_profile_used_witness :
  Enhanced.seccomp_args ["/home/u/filter.bpf"; "/etc/isolator/seccomp/default.bpf"]
    (Some profile_abs_seccomp) = ["--seccomp"; "9"; "/home/u/filter.bpf"].
Proof.
  apply seccomp_absolute_profile_used; reflexivity.
Defined.

Lemma truthy_some (o : option string) : truthy_str o = true -> exists v, o = Some v.
Proof. destruct o as [v|]; [eauto | discriminate]. Qed.

(** X: the display rules for the detected display server fail only with
    [KeyError 'XDG_RUNTIME_DIR'], and exactly when [WAYLAND_DISPLAY] is set,
    [XDG_RUNTIME_DIR] is not, and the Wayland socket path (then the bare
    [WAYLAND_DISPLAY] value, relative to the working directory) exists. *)
Theorem display_args_error_only_xdg (h : Host) (fs : list string) :
  (forall e, get_display_args h (detect_display_server h) fs = Err e ->
             e = KeyError "XDG_RUNTIME_DIR") /\
  ((exists e, get_display_args h (detect_display_server h) fs = Err e) <->
   truthy_str (environ h "WAYLAND_DISPLAY") = true /\ environ h "XDG_RUNTIME_DIR" = None /\
   mem (getenv h "WAYLAND_DISPLAY" "") fs = true).
Proof.
  unfold detect_display_server.
  destruct (truthy_str (environ h "WAYLAND_DISPLAY")) eqn:Ew.
  - destruct (truthy_some _ Ew) as [w Hw].
    unfold get_display_args, environ_item, getenv. rewrite Hw.
    destruct (environ h "XDG_RUNTIME_DIR") as [x|] eqn:Ex; cbv beta iota.
    + destruct (mem (path_join x w) fs).
      * split; [intros e He; discriminate He|].
        split; [intros [e He]; discriminate He | intros [_ [He _]]; discriminate He].
      * split; [intros e He; discriminate He|].
        split; [intros [e He]; discriminate He | intros [_ [He _]]; discriminate He].
    + assert (Ej : path_join "" w = w).
      { unfold path_join. destruct (isabs w); reflexivity. }
      rewrite Ej. destruct (mem w fs) eqn:Em.
      * split; [intros e He; injection He as <-; reflexivity|].
        split; [auto | eauto].
      * split; [intros e He; discriminate He|].
        split; [intros [e He]; discriminate He | intros [_ [_ He]]; discriminate He].
  - assert (Hok : forall e, get_display_args h
                               (if truthy_str (environ h "DISPLAY") then X11 else UNKNOWN) fs
                             <> Err e).
    { intros e. destruct (truthy_str (environ h "DISPLAY")) eqn:Ed; [|discriminate].
      destruct (truthy_some _ Ed) as [d Hd]. unfold get_display_args, environ_item.
      rewrite Hd. destruct (mem "/tmp/.X11-unix" fs); discriminate. }
    split; [intros e He; exfalso; exact (Hok e He)|].
    split; [intros [e He]; exfalso; exact (Hok e He) | intros [He _]; discriminate He].
Qed.

Lemma mem_In (x : string) (l : list string) : mem x l = true <-> In x l.
Proof.
  unfold mem. rewrite existsb_exists. split.
  - intros [y [Hy E]]. unfold str_eqb in E. apply String.eqb_eq in E. subst. exact Hy.
  - intros Hx. exists x. split; [exact Hx|]. apply String.eqb_refl.
Qed.

Lemma mkdtemp_fs (tm : positive) (rng : nat -> string) (st : St) (r : res string) (st' : St) :
  mkdtemp tm rng st = (r, st') -> incl (st_fs st) (st_fs st').
Proof.
  unfold mkdtemp. destruct (mkdtemp_attempts _ _ _ _) as [[d|] n];
    intros H; injection H as _ <-; simpl; intros x Hx; auto using in_or_app.
Qed.

Lemma create_temp_dirs_fs (rng : nat -> string) (cfg : IsolationConfig) (st : St)
    (r : res (list string)) (st' : St) :
  create_temp_dirs rng cfg st = (r, st') -> incl (st_fs st) (st_fs st').
Proof.
  unfold create_temp_dirs. destruct (tmp_dir cfg).
  - intros H. injection H as _ <-. apply incl_refl.
  - unfold bind. destruct (mkdtemp TMP_MAX rng st) as [[d|e] s1] eqn:E;
      apply mkdtemp_fs in E; intros H; injection H as _ <-; exact E.
Qed.

Lemma mount_essential_home (h : Host) (fs : list string) :
  mem (expanduser h "~") fs = true ->
  exists pre, mount_essential h fs = (pre ++ ["--bind"; expanduser h "~"; expanduser h "~"])%list.
Proof.
  intros Hm. unfold mount_essential.
  change (essential_paths h) with
    (firstn 10 (essential_paths h) ++ [(expanduser h "~", expanduser h "~", true)])%list.
  rewrite flat_map_app. eexists. f_equal. cbn [flat_map]. rewrite Hm. apply app_nil_r.
Qed.

(** X: every successful [setup] hands the sandbox the host's [/dev],
    [/dev/shm], [/proc/self], [/proc/sys], [/proc/sysrq-trigger],
    [/proc/irq] and [/proc/bus] (the fixed [dev_args] block), and, when the
    home directory exists, binds the real home directory writable at the
    same place. *)
Theorem setup_exposes_host (h : Host) (rng : nat -> string) (cfg : IsolationConfig)
    (st : St) (a : list string) (st' : St)
    (Hs : setup h rng cfg st = (Ok a, st')) :
  (exists pre post, a = (pre ++ dev_args ++ post)%list) /\
  (mem (expanduser h "~") (st_fs st) = true ->
   exists pre post, a = (pre ++ ["--bind"; expanduser h "~"; expanduser h "~"] ++ post)%list).
Proof.
  unfold setup in Hs.
  apply bind_ok_inv in Hs as [tds [s1 [H1 H]]].
  apply bind_ok_inv in H as [u [s2 [H2 H]]].
  apply bind_ok_inv in H as [a1 [s3 [H3 H]]].
  apply bind_ok_inv in H as [a2 [s4 [_ H]]].
  apply bind_ok_inv in H as [a3 [s5 [_ H]]].
  apply bind_ok_inv in H as [a4 [s6 [_ H]]].
  apply create_temp_dirs_fs in H1.
  unfold set_temp_dirs in H2. injection H2 as _ <-.
  unfold read_fs in H3. injection H3 as <- _. cbn [st_fs] in *.
  unfold ret in H. injection H as <- _.
  split.
  - exists (mount_essential h (st_fs s1)). eexists.
    rewrite <- !app_assoc. reflexivity.
  - intros Hm. apply mem_In, H1, mem_In in Hm.
    destruct (mount_essential_home h (st_fs s1) Hm) as [pre Ep].
    rewrite Ep. exists pre. eexists. rewrite <- !app_assoc. reflexivity.
Qed.

Lemma setup_exposes_host_witness :
  exists a st', setup host_ex rng_a cfg_echo (fresh_state fs_ex 0) = (Ok a, st') /\
  (exists pre post, a = (pre ++ dev_args ++ post)%list) /\
  (exists pre post, a = (pre ++ ["--bind"; "/home/u"; "/home/u"] ++ post)%list).
Proof.
  destruct (setup host_ex rng_a cfg_echo (fresh_state fs_ex 0)) as [[a|e] st'] eqn:E.
  - exists a, st'. split; [reflexivity|].
    destruct (setup_exposes_host host_ex rng_a cfg_echo (fresh_state fs_ex 0) a st' E)
      as [H1 H2].
    split; [exact H1 | exact (H2 eq_refl)].
  - vm_compute in E. discriminate E.
Defined.

(** ** The profile catalog *)

Lemma dict_get_set (d : list (string * ProfileConfig)) (k k' : string) (v : ProfileConfig) :
  dict_get (dict_set d k v) k' = if str_eqb k k' then Some v else dict_get d k'.
Proof.
  induction d as [|[k0 v0] d IH]; cbn [dict_set dict_get].
  - reflexivity.
  - destruct (str_eqb k k0) eqn:E; cbn [dict_get].
    + unfold str_eqb in E. apply String.eqb_eq in E. subst k0.
      destruct (str_eqb k k'); reflexivity.
    + destruct (str_eqb k0 k') eqn:E2; [|exact IH].
      unfold str_eqb in *. apply String.eqb_eq in E2. subst k0. rewrite E. reflexivity.
Qed.

Lemma last_named_acc (k : string) (ps : list ProfileConfig) (acc : option ProfileConfig) :
  fold_left (fun acc p => if str_eqb (pc_name p) k then Some p else acc) ps acc =
  match last_named k ps with Some p => Some p | None => acc end.
Proof.
  unfold last_named. revert acc. induction ps as [|p ps IH]; intros acc; cbn [fold_left].
  - reflexivity.
  - rewrite (IH (if str_eqb (pc_name p) k then Some p else acc)),
            (IH (if str_eqb (pc_name p) k then Some p else None)).
    destruct (fold_left _ ps None); [reflexivity|].
    destruct (str_eqb (pc_name p) k); reflexivity.
Qed.

Lemma last_named_cons (k : string) (p : ProfileConfig) (ps : list ProfileConfig) :
  last_named k (p :: ps) =
  match last_named k ps with
  | Some q => Some q
  | None => if str_eqb (pc_name p) k then Some p else None
  end.
Proof. unfold last_named at 1. cbn [fold_left]. apply last_named_acc. Qed.

Lemma fold_set_get (ps : list ProfileConfig) (d : list (string * ProfileConfig)) (k : string) :
  dict_get (fold_left (fun d p => dict_set d (pc_name p) p) ps d) k =
  match last_named k ps with Some p => Some p | None => dict_get d k end.
Proof.
  revert d. induction ps as [|p ps IH]; intros d; cbn [fold_left].
  - reflexivity.
  - rewrite IH, dict_get_set, last_named_cons.
    destruct (last_named k ps); [reflexivity|].
    destruct (str_eqb (pc_name p) k); reflexivity.
Qed.

Lemma load_docs_ok (docs : list profile_doc) (d : list (string * ProfileConfig)) :
  (forall e, ~ In (Malformed e) docs) ->
  load_docs docs d =
  Ok (fold_left (fun d p => dict_set d (pc_name p) p)
        (flat_map (fun doc => match doc with Parsed p => [p] | Malformed _ => [] end) docs) d).
Proof.
  revert d. induction docs as [|[p|e] docs IH]; intros d Hn; cbn [load_docs flat_map].
  - reflexivity.
  - apply IH. intros e He. apply (Hn e). right. exact He.
  - exfalso. apply (Hn e). left. reflexivity.
Qed.

Lemma load_docs_err (docs : list profile_doc) (d : list (string * ProfileConfig)) (e : exn) :
  In (Malformed e) docs -> load_docs docs d = Err (NameError "logging").
Proof.
  revert d. induction docs as [|[p|e'] docs IH]; intros d Hin; cbn [load_docs].
  - destruct Hin.
  - destruct Hin as [Hc|Hin]; [discriminate Hc | apply IH; exact Hin].
  - reflexivity.
Qed.

Lemma load_docs_cases (docs : list profile_doc) (d : list (string * ProfileConfig)) :
  (exists d', load_docs docs d = Ok d') \/ load_docs docs d = Err (NameError "logging").
Proof.
  revert d. induction docs as [|[p|e] docs IH]; intros d; cbn [load_docs].
  - left. eauto.
  - apply IH.
  - right. reflexivity.
Qed.

Lemma load_profiles_err (cps : list (option (list profile_doc))) (d : list (string * ProfileConfig))
    (docs : list profile_doc) (e : exn) :
  In (Some docs) cps -> In (Malformed e) docs -> load_profiles cps d = Err (NameError "logging").
Proof.
  revert d. induction cps as [|[docs0|] cps IH]; intros d Hin Hm; cbn [load_profiles].
  - destruct Hin.
  - destruct Hin as [Heq|Hin].
    + injection Heq as ->. rewrite (load_docs_err docs d e Hm). reflexivity.
    + destruct (load_docs_cases docs0 d) as [[d' E]|E]; rewrite E;
        [apply IH; assumption | reflexivity].
  - destruct Hin as [Hc|Hin]; [discriminate Hc|]. apply IH; assumption.
Qed.

Lemma load_profiles_ok (cps : list (option (list profile_doc))) (d : list (string * ProfileConfig)) :
  (forall docs e, In (Some docs) cps -> ~ In (Malformed e) docs) ->
  load_profiles cps d = Ok (fold_left (fun d p => dict_set d (pc_name p) p) (parsed_docs cps) d).
Proof.
  revert d. induction cps as [|[docs|] cps IH]; intros d Hn; cbn [load_profiles].
  - reflexivity.
  - rewrite load_docs_ok.
    2: { intros e He. apply (Hn docs e); [left; reflexivity | exact He]. }
    unfold parsed_docs. cbn [flat_map]. rewrite fold_left_app. apply IH.
    intros docs' e Hin. apply Hn. right. exact Hin.
  - apply IH. intros docs' e Hin. apply Hn. right. exact Hin.
Qed.


(** ** The profile store *)

Lemma list_ascii_app (s t : string) :
  list_ascii_of_string (s ++ t) = (list_ascii_of_string s ++ list_ascii_of_string t)%list.
Proof. induction s as [|c s IH]; cbn; [reflexivity | rewrite IH; reflexivity]. Qed.

Lemma string_app_assoc (a b c : string) : ((a ++ b) ++ c) = (a ++ (b ++ c)).
Proof. induction a as [|x a IH]; cbn; [reflexivity | rewrite IH; reflexivity]. Qed.

Lemma drop_prefix_app (p t : string) : drop_prefix p (p ++ t) = Some t.
Proof.
  induction p as [|c p IH]; cbn; [reflexivity|]. rewrite Ascii.eqb_refl. exact IH.
Qed.

Lemma contains_slash_app (s t : string) :
  contains "/" (s ++ t) = contains "/" s || contains "/" t.
Proof.
  induction s as [|c s IH]; cbn [append].
  - reflexivity.
  - cbn [contains String.prefix]. destruct (ascii_dec "/" c).
    + destruct s, t; reflexivity.
    + rewrite IH. reflexivity.
Qed.

Lemma prefix_empty_l (s : string) : String.prefix "" s = true.
Proof. destruct s; reflexivity. Qed.

Lemma prefix_sol_app (l1 l2 : list ascii) :
  String.prefix (string_of_list_ascii l1) (string_of_list_ascii (l1 ++ l2)) = true.
Proof.
  induction l1 as [|a l1 IH]; cbn; [apply prefix_empty_l|].
  destruct (ascii_dec a a); [exact IH | congruence].
Qed.

Lemma endswith_app (s t : string) : endswith (s ++ t) t = true.
Proof.
  unfold endswith, rev_string. rewrite list_ascii_app, rev_app_distr. apply prefix_sol_app.
Qed.

Lemma path_join_rel (a b : string) : isabs b = false -> exists pre, path_join a b = pre ++ b.
Proof.
  intros Hb. unfold path_join. rewrite Hb.
  destruct (str_eqb a "" || ends_with_slash a).
  - exists a. reflexivity.
  - exists (a ++ "/"). rewrite string_app_assoc. reflexivity.
Qed.

Lemma user_profiles_dir_shape (h : Host) : exists pre, user_profiles_dir h = pre ++ "profiles".
Proof. unfold user_profiles_dir. apply path_join_rel. reflexivity. Qed.

Lemma isabs_yaml (name : string) : contains "/" name = false -> isabs (name ++ ".yaml") = false.
Proof.
  destruct name as [|c r]; [reflexivity|].
  unfold isabs, startswith. cbn [contains String.prefix append]. intros H.
  destruct (ascii_dec "/" c); [rewrite prefix_empty_l in H; discriminate H | reflexivity].
Qed.

Lemma profile_file_eq (h : Host) (name : string) :
  contains "/" name = false ->
  profile_file h name = user_profiles_dir h ++ "/" ++ (name ++ ".yaml").
Proof.
  intros Hn. unfold profile_file, path_join. rewrite (isabs_yaml name Hn).
  destruct (user_profiles_dir_shape h) as [pre E]. rewrite E.
  assert (E1 : str_eqb (pre ++ "profiles") "" = false) by (destruct pre; reflexivity).
  assert (E2 : ends_with_slash (pre ++ "profiles") = false).
  { unfold ends_with_slash. rewrite list_ascii_app, rev_app_distr. reflexivity. }
  rewrite E1, E2. reflexivity.
Qed.

Lemma yaml_files_In (dir name c : string) (files : list (string * string)) :
  contains "/" name = false ->
  In (dir ++ "/" ++ (name ++ ".yaml"), c) files ->
  In (dir ++ "/" ++ (name ++ ".yaml"), c) (yaml_files dir files).
Proof.
  intros Hn Hin. unfold yaml_files. apply filter_In. split; [exact Hin|].
  cbv beta iota. rewrite <- string_app_assoc, drop_prefix_app, contains_slash_app, Hn.
  rewrite endswith_app. reflexivity.
Qed.

Lemma dict_get_file_write (files : list (string * string)) (p c : string) :
  dict_get (file_write files p c) p = Some c.
Proof.
  induction files as [|[q c'] files IH]; cbn [file_write dict_get].
  - unfold str_eqb. rewrite String.eqb_refl. reflexivity.
  - destruct (str_eqb q p) eqn:E; cbn [dict_get]; rewrite E; [reflexivity | exact IH].
Qed.

Lemma dict_get_In {V} (l : list (string * V)) (k : string) (v : V) :
  dict_get l k = Some v -> In (k, v) l.
Proof.
  induction l as [|[k' v'] l IH]; cbn [dict_get]; [discriminate|].
  destruct (str_eqb k' k) eqn:E.
  - intros H. injection H as <-. unfold str_eqb in E. apply String.eqb_eq in E. subst. left. reflexivity.
  - intros H. right. apply IH. exact H.
Qed.

Lemma add_path_In (l : list string) (p x : string) : In x l -> In x (add_path l p).
Proof. intros H. unfold add_path. destruct (mem p l); [exact H | apply in_or_app; left; exact H]. Qed.

Lemma add_path_self (l : list string) (p : string) : In p (add_path l p).
Proof.
  unfold add_path. destruct (mem p l) eqn:E.
  - apply mem_In. exact E.
  - apply in_or_app. right. left. reflexivity.
Qed.

Lemma fold_add_path_In (l paths : list string) (x : string) :
  In x l \/ In x paths -> In x (fold_left add_path l paths).
Proof.
  revert paths. induction l as [|a l IH]; intros paths H; cbn [fold_left].
  - destruct H as [[]|H]. exact H.
  - apply IH. destruct H as [[<-|H]|H].
    + right. apply add_path_self.
    + left. exact H.
    + right. apply add_path_In. exact H.
Qed.

Lemma dir_chain_aux_last (l acc : list ascii) :
  In (string_of_list_ascii (rev acc ++ l)) (dir_chain_aux l acc).
Proof.
  revert acc. induction l as [|c l IH]; intros acc.
  - cbn [dir_chain_aux]. rewrite app_nil_r. left. reflexivity.
  - assert (E : (rev acc ++ c :: l)%list = (rev (c :: acc) ++ l)%list)
      by (cbn [rev]; rewrite <- app_assoc; reflexivity).
    rewrite E.
    destruct c as [[] [] [] [] [] [] [] []]; cbn [dir_chain_aux];
      first [apply IH | apply in_or_app; right; apply IH].
Qed.

Lemma dir_chain_self (p : string) : In (rstrip_slash p) (dir_chain p).
Proof.
  unfold dir_chain. pose proof (dir_chain_aux_last (list_ascii_of_string (rstrip_slash p)) []) as H.
  cbn [rev app] in H. rewrite string_of_list_ascii_of_string in H. exact H.
Qed.

Lemma rstrip_slash_profiles (pre : string) : rstrip_slash (pre ++ "profiles") = pre ++ "profiles".
Proof.
  unfold rstrip_slash. rewrite list_ascii_app, rev_app_distr.
  change (rstrip_slash_rev (rev (list_ascii_of_string "profiles") ++ rev (list_ascii_of_string pre)))
    with (rev (list_ascii_of_string "profiles") ++ rev (list_ascii_of_string pre))%list.
  rewrite <- rev_app_distr, rev_involutive, <- list_ascii_app.
  apply string_of_list_ascii_of_string.
Qed.

Lemma write_profile_raises (dump : ProfileConfig -> string) (config_dir path : string)
    (config : ProfileConfig) (ps : ProfileStore) :
  mem config_dir (ps_paths ps) = true ->
  write_profile dump config_dir path config ps =
    (Raised (NameError "dataclasses"),
     {| ps_profiles := ps_profiles ps; ps_paths := add_path (ps_paths ps) path;
        ps_files := file_write (ps_files ps) path "" |}).
Proof. intros H. unfold write_profile. rewrite H. reflexivity. Qed.

Lemma load_store_empty_file (h : Host) (parse : string -> profile_doc) (ps : ProfileStore)
    (name : string) :
  contains "/" name = false ->
  mem (user_profiles_dir h) (ps_paths ps) = true ->
  dict_get (ps_files ps) (profile_file h name) = Some "" ->
  load_store h parse ps = Err (NameError "logging").
Proof.
  intros Hn Hd Hf. unfold load_store.
  apply (load_profiles_err _ _
           (map (fun '((_, c) : string * string) => load_profile_doc parse c)
                (yaml_files (user_profiles_dir h) (ps_files ps))) TypeError).
  - cbn [map In]. right. left. rewrite Hd. reflexivity.
  - apply in_map_iff. exists (profile_file h name, ""). split; [reflexivity|].
    rewrite (profile_file_eq h name Hn) in Hf |- *.
    apply yaml_files_In; [exact Hn|]. apply dict_get_In. exact Hf.
Qed.





(** ** _setup_environment *)

Lemma setenv_pairs_flat (l : list (string * string)) :
  setenv_pairs (flat_map (fun '((k, v) : string * string) => ["--setenv"; k; v]) l) = l.
Proof.
  induction l as [|[k v] l IH]; cbn [flat_map setenv_pairs app]; [reflexivity|].
  rewrite IH. reflexivity.
Qed.

Lemma dict_get_notin {V} (l : list (string * V)) (k : string) :
  ~ In k (map fst l) -> dict_get l k = None.
Proof.
  induction l as [|[k' v'] l IH]; cbn [dict_get map fst]; intros H; [reflexivity|].
  destruct (str_eqb k' k) eqn:E.
  - exfalso. apply H. left. unfold str_eqb in E. apply String.eqb_eq in E. exact E.
  - apply IH. intros Hin. apply H. right. exact Hin.
Qed.

Lemma dict_get_env_update_one (d : list (string * string)) (k v k' : string) :
  dict_get (env_update_one d k v) k' = if str_eqb k k' then Some v else dict_get d k'.
Proof.
  induction d as [|[k0 v0] d IH]; cbn [env_update_one dict_get]; [reflexivity|].
  destruct (str_eqb k0 k) eqn:E; cbn [dict_get].
  - unfold str_eqb in E. apply String.eqb_eq in E. subst k0.
    destruct (str_eqb k k'); reflexivity.
  - destruct (str_eqb k0 k') eqn:E2; [|exact IH].
    unfold str_eqb in *. apply String.eqb_eq in E2. subst k0.
    rewrite String.eqb_sym, E. reflexivity.
Qed.

Lemma env_update_one_keys (d : list (string * string)) (k v : string) :
  map fst (env_update_one d k v) = map fst d \/
  (map fst (env_update_one d k v) = (map fst d ++ [k])%list /\ ~ In k (map fst d)).
Proof.
  induction d as [|[k0 v0] d IH]; cbn [env_update_one map fst].
  - right. split; [reflexivity | intros []].
  - destruct (str_eqb k0 k) eqn:E; cbn [map fst]; [left; reflexivity|].
    destruct IH as [IH|[IH Hn]]; [left; rewrite IH; reflexivity|].
    right. rewrite IH. split; [reflexivity|]. intros [Hk|Hk]; [|exact (Hn Hk)].
    subst k0. unfold str_eqb in E. rewrite String.eqb_refl in E. discriminate E.
Qed.

Lemma NoDup_snoc (l : list string) (k : string) :
  NoDup l -> ~ In k l -> NoDup (l ++ [k])%list.
Proof.
  induction l as [|a l IH]; intros Hd Hn; cbn [app].
  - constructor; [intros [] | constructor].
  - inversion Hd as [|a' l' Ha Hl]; subst. constructor.
    + intros Hin. apply in_app_or in Hin as [Hin|[Hin|[]]]; [exact (Ha Hin)|].
      subst. apply Hn. left. reflexivity.
    + apply IH; [exact Hl|]. intros Hin. apply Hn. right. exact Hin.
Qed.

Lemma env_update_one_nodup (d : list (string * string)) (k v : string) :
  NoDup (map fst d) -> NoDup (map fst (env_update_one d k v)).
Proof.
  intros H. destruct (env_update_one_keys d k v) as [E|[E Hn]]; rewrite E;
    [exact H | apply NoDup_snoc; assumption].
Qed.

Lemma env_update_spec (u d : list (string * string)) :
  NoDup (map fst u) -> NoDup (map fst d) ->
  NoDup (map fst (env_update d u)) /\
  (exists rest, map fst (env_update d u) = (map fst d ++ rest)%list) /\
  forall k, dict_get (env_update d u) k =
            match dict_get u k with Some v => Some v | None => dict_get d k end.
Proof.
  unfold env_update. revert d. induction u as [|[k0 v0] u IH]; intros d Hu Hd; cbn [fold_left].
  - split; [exact Hd|]. split; [exists []; rewrite app_nil_r; reflexivity|]. intros k. reflexivity.
  - cbn [map fst] in Hu. inversion Hu as [|k' l' Hk0 Hu']; subst.
    destruct (IH (env_update_one d k0 v0) Hu' (env_update_one_nodup d k0 v0 Hd))
      as [IH1 [[rest IH2] IH3]].
    split; [exact IH1|]. split.
    + rewrite IH2. destruct (env_update_one_keys d k0 v0) as [E|[E _]]; rewrite E.
      * exists rest. reflexivity.
      * exists (k0 :: rest). rewrite <- app_assoc. reflexivity.
    + intros k. rewrite IH3, dict_get_env_update_one. cbn [dict_get].
      destruct (str_eqb k0 k) eqn:E; [|reflexivity].
      unfold str_eqb in E. apply String.eqb_eq in E. subst k.
      rewrite (dict_get_notin u k0 Hk0). reflexivity.
Qed.

Lemma environment_defaults_nodup (h : Host) : NoDup (map fst (environment_defaults h)).
Proof.
  unfold environment_defaults. cbn [map fst].
  repeat constructor; cbn [In]; intuition discriminate.
Qed.

(** X: [_setup_environment] with a profile environment (a dict, so with
    distinct keys) emits one [--setenv] per variable: [PATH],
    [XDG_RUNTIME_DIR] and [DBUS_SESSION_BUS_ADDRESS] come first, in that
    order, even when the profile overrides them; each variable gets the
    profile's value if the profile sets it and the default otherwise. *)
Theorem setup_environment_values (h : Host) (profile_env : list (string * string))
    (Hkeys : NoDup (map fst profile_env)) :
  NoDup (map fst (setenv_pairs (setup_environment h profile_env))) /\
  (exists rest, map fst (setenv_pairs (setup_environment h profile_env)) =
                ("PATH" :: "XDG_RUNTIME_DIR" :: "DBUS_SESSION_BUS_ADDRESS" :: rest)%list) /\
  forall k, dict_get (setenv_pairs (setup_environment h profile_env)) k =
            match dict_get profile_env k with
            | Some v => Some v
            | None => dict_get (environment_defaults h) k
            end.
Proof.
  unfold setup_environment. rewrite setenv_pairs_flat.
  destruct (env_update_spec profile_env (environment_defaults h) Hkeys
              (environment_defaults_nodup h)) as [H1 [[rest H2] H3]].
  split; [exact H1|]. split; [exists rest; exact H2 | exact H3].
Qed.

Lemma setup_environment_values_witness :
  NoDup (map fst (setenv_pairs (setup_environment host_ex [("DISPLAY", ":1"); ("PATH", "/opt/bin")]))) /\
  (exists rest, map fst (setenv_pairs (setup_environment host_ex [("DISPLAY", ":1"); ("PATH", "/opt/bin")])) =
                ("PATH" :: "XDG_RUNTIME_DIR" :: "DBUS_SESSION_BUS_ADDRESS" :: rest)%list) /\
  forall k, dict_get (setenv_pairs (setup_environment host_ex [("DISPLAY", ":1"); ("PATH", "/opt/bin")])) k =
            match dict_get [("DISPLAY", ":1"); ("PATH", "/opt/bin")] k with
            | Some v => Some v
            | None => dict_get (environment_defaults host_ex) k
            end.
Proof.
  apply setup_environment_values.
  cbn [map fst]. repeat constructor; cbn [In]; intuition discriminate.
Defined.

(** ** _create_temp_dirs *)

Lemma attempts_seq (rng : nat -> string) (k1 k2 : nat) (fs : list string) (n : nat)
    (r1 : option string * nat) (f : nat -> option string * nat) :
  attempts_spec rng k1 fs n r1 ->
  (forall m, attempts_spec rng k2 fs m (f m)) ->
  attempts_spec rng (k1 + k2) fs n
    (match r1 with (Some d, m) => (Some d, m) | (None, m) => f m end).
Proof.
  intros H1 H2. destruct r1 as [[d|] m]; hnf in H1 |- *.
  - destruct H1 as (i & Hi & Hd & Hm & Hfree & Hb).
    exists i. split; [lia|]. exact (conj Hd (conj Hm (conj Hfree Hb))).
  - destruct H1 as [Hm Hall]. specialize (H2 m). subst m.
    destruct (f (n + k1)) as [[d|] m']; hnf in H2 |- *.
    + destruct H2 as (i & Hi & Hd & Hm' & Hfree & Hb).
      exists (k1 + i). split; [lia|]. split; [rewrite Hd; f_equal; lia|].
      split; [rewrite Hm'; lia|]. split; [exact Hfree|].
      intros j Hj. destruct (Nat.lt_ge_cases j k1) as [Hlt|Hge]; [apply Hall; exact Hlt|].
      replace (n + j) with (n + k1 + (j - k1)) by lia. apply Hb. lia.
    + destruct H2 as [Hm' Hall2]. split; [lia|].
      intros j Hj. destruct (Nat.lt_ge_cases j k1) as [Hlt|Hge]; [apply Hall; exact Hlt|].
      replace (n + j) with (n + k1 + (j - k1)) by lia. apply Hall2. lia.
Qed.

Lemma attempt_correct (rng : nat -> string) (fs : list string) (n : nat) :
  attempts_spec rng 1 fs n (mkdtemp_attempt rng fs n).
Proof.
  unfold mkdtemp_attempt. destruct (mem (rng n) fs) eqn:E; hnf.
  - split; [lia|]. intros j Hj. replace j with 0 by lia. rewrite Nat.add_0_r. exact E.
  - exists 0. rewrite Nat.add_0_r. split; [lia|]. split; [reflexivity|].
    split; [reflexivity|]. split; [exact E|]. intros j Hj. lia.
Qed.

Lemma mkdtemp_attempts_correct (rng : nat -> string) (p : positive) :
  forall fs n, attempts_spec rng (Pos.to_nat p) fs n (mkdtemp_attempts rng p fs n).
Proof.
  induction p as [q IH|q IH|]; intros fs n.
  - rewrite Pos2Nat.inj_xI.
    replace (S (2 * Pos.to_nat q)) with (1 + (Pos.to_nat q + Pos.to_nat q)) by lia.
    cbn [mkdtemp_attempts]. apply attempts_seq; [apply attempt_correct|]. intros m.
    apply attempts_seq; [apply IH|]. intros m'. apply IH.
  - rewrite Pos2Nat.inj_xO.
    replace (2 * Pos.to_nat q) with (Pos.to_nat q + Pos.to_nat q) by lia.
    cbn [mkdtemp_attempts]. apply attempts_seq; [apply IH|]. intros m. apply IH.
  - rewrite Pos2Nat.inj_1. apply attempt_correct.
Qed.

Lemma mkdtemp_outcome (tm : positive) (rng : nat -> string) (st : St) :
  match mkdtemp tm rng st with
  | (Ok d, st') =>
      exists i, i < Pos.to_nat tm /\ d = rng (st_next st + i) /\ mem d (st_fs st) = false /\
        (forall j, j < i -> mem (rng (st_next st + j)) (st_fs st) = true) /\
        st_fs st' = (st_fs st ++ [d])%list /\ st_temp_dirs st' = st_temp_dirs st
  | (Err e, st') =>
      e = FileExistsError /\ st_fs st' = st_fs st /\ st_temp_dirs st' = st_temp_dirs st /\
      (forall j, j < Pos.to_nat tm -> mem (rng (st_next st + j)) (st_fs st) = true)
  end.
Proof.
  unfold mkdtemp. pose proof (mkdtemp_attempts_correct rng tm (st_fs st) (st_next st)) as H.
  destruct (mkdtemp_attempts rng tm (st_fs st) (st_next st)) as [[d|] m].
  - destruct H as (i & Hi & Hd & _ & Hfree & Hb). exists i. cbn [st_fs st_temp_dirs].
    split; [exact Hi|]. split; [exact Hd|]. split; [exact Hfree|]. split; [exact Hb|].
    split; reflexivity.
  - destruct H as [_ Hall]. cbn [st_fs st_temp_dirs].
    split; [reflexivity|]. split; [reflexivity|]. split; [reflexivity|]. exact Hall.
Qed.


(** ** resolve_command *)

(** X: on a non-empty command [resolve_command] keeps an absolute first
    token, takes the answer of [which] before any directory search, fails
    with the exception [which] raises (it catches only
    [CalledProcessError]), and otherwise always succeeds and replaces only
    the first token, keeping the arguments. *)
Theorem resolve_command_first_token (h : Host) (fs : list string) (b : string)
    (rest : list string) :
  (isabs b = true -> resolve_command h fs (b :: rest) = Ok (b :: rest)) /\
  (isabs b = false -> forall w, which h b = WhichFound w ->
     resolve_command h fs (b :: rest) = Ok (w :: rest)) /\
  (isabs b = false -> forall e, which h b = WhichRaises e ->
     resolve_command h fs (b :: rest) = Err e) /\
  (isabs b = true \/ (forall e, which h b <> WhichRaises e) ->
     exists p, resolve_command h fs (b :: rest) = Ok (p :: rest)).
Proof.
  split; [intros Ea; unfold resolve_command; rewrite Ea; reflexivity|].
  split; [intros Ea w Ew; unfold resolve_command; rewrite Ea, Ew; reflexivity|].
  split; [intros Ea e Ew; unfold resolve_command; rewrite Ea, Ew; reflexivity|].
  intros Hw. destruct (resolve_command_resolves h fs b rest Hw) as [c Ec].
  destruct (resolve_command_shape h fs b rest c Ec) as [p ->]. eauto.
Qed.

(** ** _parse_size on integer literals *)

Lemma digit_not_space (c : ascii) : is_digit c = true -> py_isspace c = false.
Proof.
  unfold is_digit, py_isspace. cbv zeta. intros H.
  apply andb_true_iff in H as [H1 H2]. apply Nat.leb_le in H1. apply Nat.leb_le in H2.
  apply orb_false_iff. split; apply andb_false_iff; right; apply Nat.leb_gt; lia.
Qed.

Lemma unit_not_space (c : ascii) (f : Z) : size_units (upper c) = Some f -> py_isspace c = false.
Proof.
  destruct c as [[] [] [] [] [] [] [] []]; vm_compute; intros H;
    first [discriminate H | reflexivity].
Qed.

Lemma read_digits_all (l : list ascii) (acc : Z) (cnt : nat) :
  forallb is_digit l = true ->
  read_digits l acc cnt =
  (fold_left (fun a c => (a * 10 + Z.of_nat (nat_of_ascii c - 48))%Z) l acc, cnt + length l, []).
Proof.
  revert acc cnt. induction l as [|c l IH]; intros acc cnt H; cbn [read_digits fold_left length].
  - rewrite Nat.add_0_r. reflexivity.
  - cbn [forallb] in H. apply andb_true_iff in H as [Hc Hl].
    unfold digit_val. cbv zeta. unfold is_digit in Hc. rewrite Hc.
    rewrite IH by exact Hl. replace (cnt + S (length l)) with (S cnt + length l) by lia.
    reflexivity.
Qed.

Lemma lstrip_nonspace (c : ascii) (r : string) :
  py_isspace c = false -> lstrip (String c r) = String c r.
Proof. intros H. cbn [lstrip]. rewrite H. reflexivity. Qed.

Lemma strip_id (l m m' : list ascii) (c c' : ascii) :
  l = c :: m -> l = (m' ++ [c'])%list -> py_isspace c = false -> py_isspace c' = false ->
  strip (string_of_list_ascii l) = string_of_list_ascii l.
Proof.
  intros E1 E2 H1 H2. unfold strip, rev_string.
  assert (A : lstrip (string_of_list_ascii l) = string_of_list_ascii l)
    by (rewrite E1; apply lstrip_nonspace; exact H1).
  rewrite A, list_ascii_of_string_of_list_ascii.
  assert (B : lstrip (string_of_list_ascii (rev l)) = string_of_list_ascii (rev l))
    by (rewrite E2, rev_unit; apply lstrip_nonspace; exact H2).
  rewrite B, list_ascii_of_string_of_list_ascii, rev_involutive. reflexivity.
Qed.

Lemma py_float_digits (neg : bool) (ds : list ascii) :
  ds <> [] -> forallb is_digit ds = true ->
  py_float (string_of_list_ascii ((if neg then ["-"%char] else []) ++ ds)%list) =
  Some (((if neg then (-1) else 1) * digits_value ds)%Z, 0).
Proof.
  intros Hne Hd.
  destruct (exists_last Hne) as [ds' [dl Edl]].
  assert (Hdl : is_digit dl = true).
  { rewrite Edl, forallb_app in Hd. apply andb_true_iff in Hd as [_ Hd].
    cbn [forallb] in Hd. rewrite andb_true_r in Hd. exact Hd. }
  destruct ds as [|d r]; [congruence|].
  assert (Hd0 : is_digit d = true)
    by (cbn [forallb] in Hd; apply andb_true_iff in Hd as [Hd0 _]; exact Hd0).
  assert (Hr := read_digits_all (d :: r) 0 0 Hd).
  unfold py_float. destruct neg; cbn [app].
  - rewrite (strip_id ("-"%char :: d :: r) (d :: r) ("-"%char :: ds') "-"%char dl eq_refl
               ltac:(rewrite Edl; reflexivity) eq_refl (digit_not_space dl Hdl)).
    rewrite list_ascii_of_string_of_list_ascii. cbv beta iota zeta.
    rewrite Hr. reflexivity.
  - rewrite (strip_id (d :: r) r ds' d dl eq_refl Edl (digit_not_space d Hd0)
               (digit_not_space dl Hdl)).
    rewrite list_ascii_of_string_of_list_ascii. cbv zeta.
    destruct d as [[] [] [] [] [] [] [] []]; try discriminate Hd0;
      cbv beta iota; rewrite Hr; reflexivity.
Qed.

(** X: [_parse_size] on an integer literal: digits with an optional minus
    sign, followed by one unit letter in either case, give the number of
    the digits times the unit's factor (for numbers below 2^53, where
    Python's [float] is exact); the sign is kept, so a negative size such
    as ["-1G"] is accepted and gives a negative byte count. *)
Theorem parse_size_integer (neg : bool) (ds : list ascii) (u : ascii) (f : Z)
    (Hne : ds <> []) (Hdig : forallb is_digit ds = true)
    (Hbound : (digits_value ds < 2 ^ 53)%Z)
    (Hu : size_units (upper u) = Some f) :
  parse_size (string_of_list_ascii ((if neg then ["-"%char] else []) ++ ds ++ [u])%list) =
  Ok ((if neg then -1 else 1) * digits_value ds * f)%Z.
Proof.
  assert (Hfirst : exists c m, ((if neg then ["-"%char] else []) ++ ds ++ [u])%list = c :: m /\
                               py_isspace c = false).
  { destruct ds as [|d r]; [congruence|]. destruct neg.
    - exists "-"%char, (d :: r ++ [u])%list. split; reflexivity.
    - exists d, (r ++ [u])%list. split; [reflexivity|]. apply digit_not_space.
      cbn [forallb] in Hdig. apply andb_true_iff in Hdig as [Hd _]. exact Hd. }
  destruct Hfirst as (c & m & Ec & Hc).
  unfold parse_size.
  rewrite (strip_id _ m ((if neg then ["-"%char] else []) ++ ds)%list c u Ec
             (app_assoc _ _ _) Hc (unit_not_space u f Hu)).
  unfold last_char. rewrite list_ascii_of_string_of_list_ascii, app_assoc, rev_unit.
  cbv beta iota zeta. rewrite Hu.
  unfold drop_last. rewrite list_ascii_of_string_of_list_ascii, removelast_last.
  rewrite (py_float_digits neg ds Hne Hdig).
  unfold py_int_mul. cbn [Z.of_nat Z.pow]. rewrite Z.quot_1_r. reflexivity.
Qed.

Lemma parse_size_integer_witness :
  parse_size (string_of_list_ascii (["-"%char] ++ ["1"%char] ++ ["g"%char])%list) =
  Ok ((-1) * digits_value ["1"%char] * (1024 * 1024 * 1024))%Z.
Proof.
  apply (parse_size_integer true ["1"%char] "g"%char (1024 * 1024 * 1024)%Z);
    [discriminate | reflexivity | reflexivity | reflexivity].
Defined.

(** ** detect_profile *)

Lemma basename_rev_cons (c : ascii) (l acc : list ascii) :
  basename_rev (c :: l) acc = if Ascii.eqb c "/" then acc else basename_rev l (c :: acc).
Proof. destruct c as [[] [] [] [] [] [] [] []]; reflexivity. Qed.

Lemma basename_rev_slash (l r acc : list ascii) :
  basename_rev (l ++ "/"%char :: r) acc = basename_rev l acc.
Proof.
  revert acc. induction l as [|c l IH]; intros acc; cbn [app]; [reflexivity|].
  rewrite !basename_rev_cons. destruct (Ascii.eqb c "/"); [reflexivity | apply IH].
Qed.

Lemma basename_under_dir (dir cmd : string) : basename (dir ++ "/" ++ cmd) = basename cmd.
Proof.
  unfold basename. rewrite !list_ascii_app. cbn [list_ascii_of_string app].
  rewrite rev_app_distr. cbn [rev]. rewrite <- app_assoc. cbn [app].
  rewrite basename_rev_slash. reflexivity.
Qed.

Lemma list_upper_string (s : string) :
  list_ascii_of_string (upper_string s) = map upper (list_ascii_of_string s).
Proof. induction s as [|c s IH]; cbn; [reflexivity | rewrite IH; reflexivity]. Qed.

Lemma sol_map_upper (l : list ascii) :
  string_of_list_ascii (map upper l) = upper_string (string_of_list_ascii l).
Proof. induction l as [|c l IH]; cbn; [reflexivity | rewrite IH; reflexivity]. Qed.

Lemma upper_slash (c : ascii) : Ascii.eqb (upper c) "/" = Ascii.eqb c "/".
Proof. destruct c as [[] [] [] [] [] [] [] []]; vm_compute; reflexivity. Qed.

Lemma lower_upper (c : ascii) : lower (upper c) = lower c.
Proof. destruct c as [[] [] [] [] [] [] [] []]; vm_compute; reflexivity. Qed.

Lemma basename_rev_upper (l acc : list ascii) :
  basename_rev (map upper l) (map upper acc) = map upper (basename_rev l acc).
Proof.
  revert acc. induction l as [|c l IH]; intros acc; cbn [map]; [reflexivity|].
  rewrite !basename_rev_cons, upper_slash.
  destruct (Ascii.eqb c "/"); [reflexivity|]. apply (IH (c :: acc)).
Qed.

Lemma basename_upper (s : string) : basename (upper_string s) = upper_string (basename s).
Proof.
  unfold basename. rewrite list_upper_string, <- map_rev.
  change (@nil ascii) with (map upper (@nil ascii)).
  rewrite basename_rev_upper. apply sol_map_upper.
Qed.

Lemma lower_upper_string (s : string) : lower_string (upper_string s) = lower_string s.
Proof. induction s as [|c s IH]; cbn; [reflexivity | rewrite lower_upper, IH; reflexivity]. Qed.

(** X: [detect_profile] depends only on the last path component of the
    command and not on the case of its ASCII letters: a command under any
    directory, or spelled in upper case, gets the same profile. *)
Theorem detect_profile_path_case (dir cmd : string) :
  detect_profile (dir ++ "/" ++ cmd) = detect_profile cmd /\
  detect_profile (upper_string cmd) = detect_profile cmd.
Proof.
  unfold detect_profile. rewrite basename_under_dir, basename_upper, lower_upper_string.
  split; reflexivity.
Qed.
